(** * Estroframe: the pharmacokinetic engine of [analysis.py]

    A shallow embedding of [HormoneAnalyzer] (absorption solver, physiology
    adjusters, Bateman function, schedule simulator, calibration estimator)
    together with the drug tables of [data.py] it reads.

    Numbers.  Python floats are idealised as exact numbers.  Quantities that
    only go through rational arithmetic, comparisons and truncation (patient
    attributes, drug constants, the time grid, dose times, lab days) are
    rationals [Q], so that these parts evaluate; every finite float is such
    a rational.  Everything that goes through [np.log] or [np.exp] (ke, ka,
    concentrations, calibration factors) is a real [R], reached from the
    rational side through [Q2R]. *)

From stdpp Require Import gmap strings list fin_maps.
From Stdlib Require Import QArith Qround Qminmax Qabs Qreals Reals Lra Lia.

Local Open Scope string_scope.

(** ** Python and numpy primitives used by the engine *)

Module py.

(** [int(x)] on a float: truncation toward zero. *)
Definition int (x : Q) : Z := Z.quot (Qnum x) (Zpos (Qden x)).

(** [x < y] on rationals, as a boolean. *)
Definition Qltb (x y : Q) : bool := negb (Qle_bool y x).

(** [range(n)]: empty when [n <= 0]. *)
Definition range (n : Z) : list Z := map Z.of_nat (seq 0 (Z.to_nat n)).

End py.

Module np.

(** [np.clip(x, lo, hi)] is [minimum(maximum(x, lo), hi)]. *)
Definition clipQ (x lo hi : Q) : Q := Qmin (Qmax x lo) hi.
Definition clip (x lo hi : R) : R := Rmin (Rmax x lo) hi.

(** [np.linspace(0, stop, num)], endpoint included (numpy's default):
    [num] samples [i * (stop / (num - 1))]; a single sample is [0]; a
    negative [num] raises [ValueError]. *)
Definition linspace (stop : Q) (num : Z) : option (list Q) :=
  if (num <? 0)%Z then None
  else if (num =? 1)%Z then Some [0%Q]
  else
    let step := (stop / inject_Z (num - 1))%Q in
    Some (map (fun i => (inject_Z i * step)%Q) (py.range num)).

(** [np.arange(0, stop, step)] for [step > 0]:
    [ceil(stop / step)] values [i * step]. *)
Definition arange (stop step : Q) : list Q :=
  map (fun i => (inject_Z i * step)%Q) (py.range (Qceiling (stop / step))).

Definition zeros_like {A} (l : list A) : list R := map (fun _ => 0%R) l.

Definition any (mask : list bool) : bool := existsb (fun b => b) mask.

(** [a[mask]]: the elements selected by a boolean mask. *)
Fixpoint select {A} (mask : list bool) (a : list A) : list A :=
  match mask, a with
  | b :: mask', x :: a' => if b then x :: select mask' a' else select mask' a'
  | _, _ => []
  end.

(** [np.where(mask)[0]]: the indices at which the mask holds. *)
Fixpoint where_from (i : nat) (mask : list bool) : list nat :=
  match mask with
  | [] => []
  | b :: mask' => if b then i :: where_from (S i) mask' else where_from (S i) mask'
  end.
Definition where_ (mask : list bool) : list nat := where_from 0 mask.

(** [np.argmin]: index of the first minimum; [ValueError] on an empty
    array.  [ltb] is the strict order of the element type. *)
Fixpoint argmin_from {A} (ltb : A -> A -> bool)
    (best_i : nat) (best : A) (i : nat) (l : list A) : nat :=
  match l with
  | [] => best_i
  | x :: l' =>
      if ltb x best then argmin_from ltb i x (S i) l'
      else argmin_from ltb best_i best (S i) l'
  end.
Definition argmin {A} (ltb : A -> A -> bool) (l : list A) : option nat :=
  match l with
  | [] => None
  | x :: l' => Some (argmin_from ltb 0%nat x 1%nat l')
  end.

Definition Rltb (x y : R) : bool := if Rlt_dec x y then true else false.


End np.

(** ** [data.py]: the drug store and the route constants *)

Module data.

Record DrugInfo := {
  type : string;
  half_life : Q;
  t_peak : Q;
  bioavailability : Q;
  ester_factor : Q
}.

Definition ROUTE_CONSTANTS : gmap string Q :=
  list_to_map [
    ("Injection", 117.0%Q);
    ("Oral", 12.0%Q);
    ("Transdermal", 30.0%Q);
    ("Anti-Androgen", 4.0%Q);
    ("Sublingual", 12.0%Q);
    ("Progesterone", 12.0%Q);
    ("GnRH-Agonist", 117.0%Q)
  ].

Definition mk (ty : string) (hl tp f ef : Q) : DrugInfo :=
  {| type := ty; half_life := hl; t_peak := tp;
     bioavailability := f; ester_factor := ef |}.

Definition DRUG_DB : gmap string DrugInfo :=
  list_to_map [
    ("Estradiol Valerate (Progynon Depot)", mk "Injection" 72.0 36.0 1.0 0.76);
    ("Estradiol Enanthate", mk "Injection" 144.0 72.0 1.0 0.72);
    ("Estradiol Cypionate", mk "Injection" 240.0 96.0 1.0 0.70);
    ("Estradiol Valerate (Progynova)", mk "Oral" 14.0 6.0 0.05 0.76);
    ("Estradiol Hemihydrate (Estrofem)", mk "Oral" 18.0 3.0 0.05 0.97);
    ("Sublingual Estradiol (Estrofem)", mk "Sublingual" 12.0 1.0 0.25 1.0);
    ("Estrogel (Pump)", mk "Transdermal" 36.0 4.0 0.10 1.0);
    ("Cyproterone Acetate (Androcur)", mk "Anti-Androgen" 40.0 3.0 1.0 1.0);
    ("Spironolactone", mk "Anti-Androgen" 2.0 1.0 1.0 1.0);
    ("Micronized Progesterone (Utrogestan)", mk "Progesterone" 18.0 2.5 0.08 1.0);
    ("Leuprorelin (Lupron Depot - 1M)", mk "GnRH-Agonist" 336.0 4.0 1.0 1.0);
    ("Triptorelin (Decapeptyl - 1M)", mk "GnRH-Agonist" 336.0 3.0 1.0 1.0)
  ].

End data.

(** ** [HormoneAnalyzer]: patient profile and physiology adjusters *)

Record HormoneAnalyzer := {
  weight : Q;
  height : Q;
  age : Z;
  ast : Q;
  alt : Q;
  body_fat : Q;
  bmi : Q
}.

(** [HormoneAnalyzer.__init__]: weight and height are clamped from below,
    the age is truncated to an integer. *)
Definition init (user_weight user_age ast alt body_fat user_height : Q)
  : HormoneAnalyzer :=
  let w := Qmax user_weight 30.0 in
  let h := Qmax user_height 100.0 in
  {| weight := w; height := h; age := py.int user_age;
     ast := ast; alt := alt; body_fat := body_fat;
     bmi := (w / ((h / 100) * (h / 100)))%Q |}.

Definition _get_liver_metabolism_factor (self : HormoneAnalyzer) : Q :=
  let limit := 40.0%Q in
  if py.Qltb limit (ast self) || py.Qltb limit (alt self) then
    let excess := (Qmax (ast self) (alt self) - limit)%Q in
    let factor := (1.0 + (excess / 10.0) * 0.02)%Q in
    Qmin factor 1.2
  else 1.0%Q.

Definition _get_body_fat_adjustment (self : HormoneAnalyzer) : Q :=
  let baseline_fat := 22.0%Q in
  let fat_offset := ((body_fat self - baseline_fat) * 0.008)%Q in
  let adjustment := (1.0 + fat_offset)%Q in
  np.clipQ adjustment 0.8 1.5.

Definition _get_bmi_adjustment (self : HormoneAnalyzer) : Q :=
  let baseline_bmi := 22.0%Q in
  let bmi_offset := ((bmi self - baseline_bmi) * 0.01)%Q in
  let adjustment := (1.0 + bmi_offset)%Q in
  np.clipQ adjustment 0.9 1.3.

Definition oral_routes : list string := ["Oral"; "Anti-Androgen"].

Definition _get_first_pass_adjustment (self : HormoneAnalyzer)
    (route_type : string) : Q :=
  if bool_decide (route_type ∈ oral_routes) then
    let age_offset := (inject_Z (age self - 25) * 0.002)%Q in
    let adjustment := (1.0 + age_offset)%Q in
    np.clipQ adjustment 0.85 1.15
  else 1.0%Q.

(** ** Absorption solver *)

Local Open Scope R_scope.

(** The body of [for _ in range(15)]: [fuel] iterations remain.  Both
    [break]s leave the loop with the current [ka]. *)
Fixpoint newton_loop (fuel : nat) (t_peak ke ka : R) : R :=
  match fuel with
  | O => ka
  | S fuel' =>
      let ka := if Rle_dec ka 1e-5 then 1e-5 else ka in
      let f_val := t_peak * (ka - ke) - (ln ka - ln ke) in
      let f_prime := t_peak - (1.0 / ka) in
      if Rlt_dec (Rabs f_prime) 1e-7 then ka
      else
        let delta := f_val / f_prime in
        let ka := ka - delta in
        if Rlt_dec (Rabs delta) 1e-5 then ka
        else newton_loop fuel' t_peak ke ka
  end.

Definition _solve_ka_newton (t_peak ke : R) : R :=
  if Rle_dec t_peak 0 then 100.0
  else
    let ka := 1.0 / (t_peak / 2.5) in
    let ka := if Rle_dec ka ke then ke * 2.0 else ka in
    let ka := newton_loop 15 t_peak ke ka in
    if Rle_dec ka ke then ke + 0.01 else ka.

Definition _get_ka_ke (drug_info : data.DrugInfo) : R * R :=
  let half_life_hours := Q2R (data.half_life drug_info) in
  let t_peak_hours := Q2R (data.t_peak drug_info) in
  let ke := ln 2 / half_life_hours in
  let ka := _solve_ka_newton t_peak_hours ke in
  (ka, ke).

(** ** Concentration model *)

Definition bateman_function (self : HormoneAnalyzer)
    (t dose ka ke f ester_factor : R) (route_type : string) : R :=
  let vd_const := Q2R (default 4.0%Q (data.ROUTE_CONSTANTS !! route_type)) in
  let fat_mod := Q2R (_get_body_fat_adjustment self) in
  let bmi_mod := Q2R (_get_bmi_adjustment self) in
  let current_total_volume := Q2R (weight self) * vd_const * fat_mod * bmi_mod in
  let first_pass_mod := Q2R (_get_first_pass_adjustment self route_type) in
  let liver_func_mod := Q2R (_get_liver_metabolism_factor self) in
  let adjusted_f := f * first_pass_mod * liver_func_mod in
  let effective_dose_ng := dose * adjusted_f * ester_factor * 1000000 in
  let ka := if Req_dec_T ka ke then ke + 1e-5 else ka in
  let coefficient := (effective_dose_ng * ka) / (current_total_volume * (ka - ke)) in
  let conc := coefficient * (exp (- ke * t) - exp (- ka * t)) in
  Rmax conc 0.

Local Close Scope R_scope.

(** ** Schedule simulator *)

(** A schedule entry is a dict: ['name'], ['dose'] and ['interval'] are
    read with [item[...]] (required), the other keys with [item.get] and
    a default. *)
Record ScheduleEntry := {
  name : string;
  dose : Q;
  interval : Q;
  is_cycling : option bool;
  offset : option Q;
  duration : option Q
}.

(** The loop over [cycle_starts] that fills [all_dose_times]. *)
Definition expand_cycle (total_hours : Q) (is_cycling : bool)
    (offset_days duration_days : Q) (start_time : Q) : list Q :=
  if is_cycling then
    List.filter (fun dose_time => py.Qltb dose_time total_hours)
      (map (fun d => (start_time + (offset_days * 24) + (inject_Z d * 24))%Q)
           (py.range (py.int duration_days)))
  else [start_time].

Definition all_dose_times (total_hours : Q) (item : ScheduleEntry) : list Q :=
  let interval_days := interval item in
  let is_cycling := default false (is_cycling item) in
  let offset_days := default 0.0%Q (offset item) in
  let duration_days := default 1.0%Q (duration item) in
  let cycle_starts := np.arange total_hours (interval_days * 24)%Q in
  flat_map (expand_cycle total_hours is_cycling offset_days duration_days)
           cycle_starts.

(** The two list comprehensions under [if stop_day is not None]. *)
Definition apply_cessation (stop_day resume_day : option Z)
    (dose_times : list Q) : list Q :=
  match stop_day with
  | Some s =>
      match resume_day with
      | Some r =>
          List.filter (fun dt => Qle_bool dt (inject_Z (s * 24))
                              || Qle_bool (inject_Z (r * 24)) dt) dose_times
      | None =>
          List.filter (fun dt => Qle_bool dt (inject_Z (s * 24))) dose_times
      end
  | None => dose_times
  end.

(** The dose times of one entry that reach the superposition loop. *)
Definition retained_dose_times (total_hours : Q) (stop_day resume_day : option Z)
    (item : ScheduleEntry) : list Q :=
  apply_cessation stop_day resume_day (all_dose_times total_hours item).

(** One pass of [for dose_t in all_dose_times]: the masked in-place
    update [total_conc[valid_mask] += conc * cf]. *)
Definition add_dose (self : HormoneAnalyzer) (t_hours : list Q)
    (dose ka ke f ef : R) (route_type : string) (cf : R)
    (total_conc : list R) (dose_t : Q) : list R :=
  let shifted_t := map (fun t => (t - dose_t)%Q) t_hours in
  let valid_mask := map (fun s => Qle_bool 0 s) shifted_t in
  if np.any valid_mask then
    zip_with (fun s c =>
                if Qle_bool 0 s then
                  (c + bateman_function self (Q2R s) dose ka ke f ef route_type * cf)%R
                else c)
             shifted_t total_conc
  else total_conc.

(** The body of [for item in schedule_list], as a transformer of the
    accumulator [total_conc]; the two [continue]s return it unchanged. *)
Definition simulate_item (self : HormoneAnalyzer) (t_hours : list Q)
    (total_hours : Q) (calibration_factors : gmap string R)
    (stop_day resume_day : option Z)
    (total_conc : list R) (item : ScheduleEntry) : list R :=
  let drug_name := name item in
  let interval_days := interval item in
  if py.Qltb interval_days 0.01 then total_conc
  else
    match data.DRUG_DB !! drug_name with
    | None => total_conc
    | Some drug_info =>
        let route_type := data.type drug_info in
        let cf := default 1.0%R (calibration_factors !! route_type) in
        let '(ka, ke) := _get_ka_ke drug_info in
        let f := Q2R (data.bioavailability drug_info) in
        let ef := Q2R (data.ester_factor drug_info) in
        fold_left
          (add_dose self t_hours (Q2R (dose item)) ka ke f ef route_type cf)
          (retained_dose_times total_hours stop_day resume_day item)
          total_conc
    end.

(** [simulate_schedule]: [None] stands for the [ValueError] of
    [np.linspace] on a negative number of samples. *)
Definition simulate_schedule (self : HormoneAnalyzer)
    (schedule_list : list ScheduleEntry) (days : Q) (resolution : Z)
    (calibration_factors : option (gmap string R))
    (stop_day resume_day : option Z) : option (list Q * list R) :=
  let calibration_factors := default ∅ calibration_factors in
  let total_hours := (days * 24)%Q in
  let num_points := py.int (days * inject_Z resolution) in
  t_hours ← np.linspace total_hours num_points;
  let total_conc := np.zeros_like t_hours in
  let t_days := map (fun t => (t / 24)%Q) t_hours in
  match schedule_list with
  | [] => Some (t_days, total_conc)
  | _ =>
      Some (t_days,
            fold_left
              (simulate_item self t_hours total_hours calibration_factors
                             stop_day resume_day)
              schedule_list total_conc)
  end.

(** ** Calibration estimator *)


Definition route_of (d : ScheduleEntry) : option string :=
  data.type <$> data.DRUG_DB !! name d.

(** The filters of the two list comprehensions that split the schedule. *)
Definition is_other (target_route : string) (d : ScheduleEntry) : bool :=
  match route_of d with
  | Some ty => negb (String.eqb ty target_route)
  | None => false
  end.

Definition is_target (target_route : string) (d : ScheduleEntry) : bool :=
  match route_of d with
  | Some ty => String.eqb ty target_route
  | None => false
  end.

(** The part of [calculate_calibration_factor] after the two simulations:
    trough search in the window around [lab_day], then the clipped ratio.
    [None] stands for numpy's [ValueError] / [IndexError]. *)
Definition factor_at_trough (lab_day : Q) (lab_value : R)
    (t_sim : list Q) (c_other c_target : list R) : option R :=
  let window_mask :=
    map (fun t => Qle_bool (Qmax 0 (lab_day - 0.5)) t
               && Qle_bool t (lab_day + 0.1)) t_sim in
  idx ←
    (if np.any window_mask then
       let c_total := zip_with Rplus c_other c_target in
       trough_rel_idx ← np.argmin np.Rltb (np.select window_mask c_total);
       np.where_ window_mask !! trough_rel_idx
     else
       np.argmin py.Qltb (map (fun t => Qabs (t - lab_day)) t_sim));
  conc_other ← c_other !! idx;
  conc_target ← c_target !! idx;
  if Rlt_dec conc_target 0.1 then Some 1.0%R
  else
    let new_factor := ((lab_value - conc_other) / conc_target)%R in
    Some (np.clip new_factor 0.1 5.0).

Definition calculate_calibration_factor (self : HormoneAnalyzer)
    (schedule_list : list ScheduleEntry) (lab_day : Q) (lab_value : R)
    (target_route : string) (current_factors : option (gmap string R))
  : option R :=
  if Rle_dec lab_value 0 then Some 1.0%R
  else
    let current_factors := default ∅ current_factors in
    let calc_factors := <[target_route := 1.0%R]> current_factors in
    let other_schedule := List.filter (is_other target_route) schedule_list in
    '(t_sim, c_other) ←
      simulate_schedule self other_schedule (lab_day + 1)%Q 24
                        (Some calc_factors) None None;
    let target_schedule := List.filter (is_target target_route) schedule_list in
    '(_, c_target) ←
      simulate_schedule self target_schedule (lab_day + 1)%Q 24
                        (Some {[ target_route := 1.0%R ]}) None None;
    factor_at_trough lab_day lab_value t_sim c_other c_target.


(** ** The engine on a store of Python objects

    The caller hands the engine references: a list object holding
    references to entry dicts, and a dict of calibration factors.  The
    store maps locations to objects; [copy()], list comprehensions and
    dict literals allocate, item assignment writes in place. *)

Module store.

Definition loc := positive.

Inductive obj :=
| ODict (m : gmap string R)
| OEntry (e : ScheduleEntry)
| OList (ls : list loc).

Definition M (A : Type) : Type := gmap loc obj -> option (A * gmap loc obj).

Definition ret {A} (a : A) : M A := fun h => Some (a, h).
Definition bind {A B} (m : M A) (k : A -> M B) : M B :=
  fun h => match m h with
           | Some (a, h') => k a h'
           | None => None
           end.
Definition raise {A} : M A := fun _ => None.
Definition lift {A} (o : option A) : M A :=
  fun h => match o with Some a => Some (a, h) | None => None end.

Definition alloc (o : obj) : M loc :=
  fun h => let l := fresh (dom h) in Some (l, <[l := o]> h).
Definition read (l : loc) : M obj :=
  fun h => match h !! l with Some o => Some (o, h) | None => None end.
Definition write (l : loc) (o : obj) : M unit :=
  fun h => match h !! l with
           | Some _ => Some (tt, <[l := o]> h)
           | None => None
           end.

End store.

Notation "x <- m ; k" := (store.bind m (fun x => k))
  (at level 20, m at level 100, k at level 200, only parsing).

Module engine.
Import store.

Definition read_dict (l : loc) : M (gmap string R) :=
  o <- read l ;
  match o with ODict m => ret m | _ => raise end.

Definition read_entry (l : loc) : M ScheduleEntry :=
  o <- read l ;
  match o with OEntry e => ret e | _ => raise end.

Definition read_list (l : loc) : M (list loc) :=
  o <- read l ;
  match o with OList ls => ret ls | _ => raise end.

Fixpoint read_entries (ls : list loc) : M (list ScheduleEntry) :=
  match ls with
  | [] => ret []
  | l :: ls' =>
      e <- read_entry l ;
      es <- read_entries ls' ;
      ret (e :: es)
  end.

(** [[d for d in schedule_list if p(d)]]: the new list holds the same
    entry objects. *)
Fixpoint comprehension (p : ScheduleEntry -> bool) (ls : list loc)
  : M (list loc) :=
  match ls with
  | [] => ret []
  | l :: ls' =>
      e <- read_entry l ;
      rest <- comprehension p ls' ;
      ret (if p e then l :: rest else rest)
  end.

(** [simulate_schedule] on references: it only reads the schedule list,
    its entries and the factor dict; [total_conc], [all_dose_times] and
    the time grid are arrays of its own. *)
Definition simulate_schedule (self : HormoneAnalyzer)
    (schedule_list : loc) (days : Q) (resolution : Z)
    (calibration_factors : option loc)
    (stop_day resume_day : option Z) : M (list Q * list R) :=
  calibration_factors <-
    match calibration_factors with
    | None => alloc (ODict ∅)
    | Some l => ret l
    end ;
  ls <- read_list schedule_list ;
  items <- read_entries ls ;
  factors <- read_dict calibration_factors ;
  lift (simulate_schedule self items days resolution (Some factors)
                          stop_day resume_day).

Definition calculate_calibration_factor (self : HormoneAnalyzer)
    (schedule_list : loc) (lab_day : Q) (lab_value : R)
    (target_route : string) (current_factors : option loc) : M R :=
  if Rle_dec lab_value 0 then ret 1.0%R
  else
    current_factors <-
      match current_factors with
      | None => alloc (ODict ∅)
      | Some l => ret l
      end ;
    m <- read_dict current_factors ;
    calc_factors <- alloc (ODict m) ;
    _ <- write calc_factors (ODict (<[target_route := 1.0%R]> m)) ;
    ls <- read_list schedule_list ;
    other <- comprehension (is_other target_route) ls ;
    other_schedule <- alloc (OList other) ;
    sim_other <-
      simulate_schedule self other_schedule (lab_day + 1)%Q 24
                        (Some calc_factors) None None ;
    let '(t_sim, c_other) := sim_other in
    target <- comprehension (is_target target_route) ls ;
    target_schedule <- alloc (OList target) ;
    unit_factors <- alloc (ODict {[ target_route := 1.0%R ]}) ;
    sim_target <-
      simulate_schedule self target_schedule (lab_day + 1)%Q 24
                        (Some unit_factors) None None ;
    let '(_, c_target) := sim_target in
    lift (factor_at_trough lab_day lab_value t_sim c_other c_target).

End engine.

(** How the store represents the arguments of the functional model. *)
Module rep.
Import store.

(** A computation preserves the store when every object present before
    the run is present, unchanged, after it. *)
Definition preserves {A} (m : M A) : Prop :=
  forall h a h', m h = Some (a, h') -> h ⊆ h'.

Definition entries_at (h : gmap loc obj) (ls : list loc)
    (items : list ScheduleEntry) : Prop :=
  Forall2 (fun l e => h !! l = Some (OEntry e)) ls items.

Definition schedule_at (h : gmap loc obj) (sl : loc)
    (items : list ScheduleEntry) : Prop :=
  exists ls, h !! sl = Some (OList ls) /\ entries_at h ls items.

Definition factors_at (h : gmap loc obj) (cl : option loc)
    (cf : option (gmap string R)) : Prop :=
  match cl, cf with
  | Some l, Some m => h !! l = Some (ODict m)
  | None, None => True
  | _, _ => False
  end.

End rep.

(** ** Unit conversion at the end of [analysis.py] *)

Definition convert_pg_to_pmol (pg_ml : R) : R := (pg_ml * 3.671)%R.

Definition convert_pmol_to_pg (pmol_l : R) : R := (pmol_l / 3.671)%R.

(** ** [utils.py]: unit conversion, statistics and risk helpers

    The translation table behind [t(key)] is outside the engine: a
    translated label is represented by its key. *)

Module utils.

Definition convert_e2_unit (value : R) (target_unit : string) : R :=
  let factor := 3.6713%R in
  if String.eqb target_unit "pmol/L" then (value * factor)%R
  else if String.eqb target_unit "pg/mL" then value
  else value.

Definition convert_back_from_pmol (value_pmol : R) : R := (value_pmol / 3.6713)%R.

Record Stats := {
  peak : R;
  trough : R;
  avg : R;
  fluctuation : R;
  max_slope : R
}.

Definition zero_stats : Stats :=
  {| peak := 0; trough := 0; avg := 0; fluctuation := 0; max_slope := 0 |}.

(** Python's [max] and [min] of a sequence, and [np.max]: [None] on an
    empty one ([ValueError]). *)
Definition py_max (l : list R) : option R :=
  match l with
  | [] => None
  | x :: l' => Some (fold_left Rmax l' x)
  end.

Definition py_min (l : list R) : option R :=
  match l with
  | [] => None
  | x :: l' => Some (fold_left Rmin l' x)
  end.

(** Python's [sum]. *)
Definition py_sum (l : list R) : R := fold_left Rplus l 0%R.

(** [np.diff]: [a[i+1] - a[i]]. *)
Fixpoint diff {A} (sub : A -> A -> A) (l : list A) : list A :=
  match l with
  | x :: (y :: _) as l' => sub y x :: diff sub l'
  | _ => []
  end.

(** An elementwise operation on two one-dimensional arrays with numpy's
    broadcasting: equal lengths, or one of them of length 1; anything else
    raises [ValueError]. *)
Definition broadcast2 {A B C} (f : A -> B -> C) (a : list A) (b : list B)
  : option (list C) :=
  if (length a =? length b)%nat then Some (zip_with f a b)
  else
    match a, b with
    | [x], _ => Some (map (f x) b)
    | _, [y] => Some (map (fun x => f x y) a)
    | _, _ => None
    end.

Definition Rgeb (x y : R) : bool := if Rge_dec x y then true else false.
Definition Rgtb (x y : R) : bool := if Rgt_dec x y then true else false.

(** The two search loops of [calculate_stats]: the first and the last
    index whose value satisfies [p]. *)
Fixpoint find_first_from (p : R -> bool) (i : nat) (l : list R) : option nat :=
  match l with
  | [] => None
  | x :: l' => if p x then Some i else find_first_from p (S i) l'
  end.

Fixpoint find_last_from (p : R -> bool) (i : nat) (l : list R) : option nat :=
  match l with
  | [] => None
  | x :: l' =>
      match find_last_from p (S i) l' with
      | Some j => Some j
      | None => if p x then Some i else None
      end
  end.

(** [calculate_stats]; [None] stands for a numpy [ValueError] in the
    slope computation (shapes that do not broadcast, [np.max] of an empty
    array).  A zero time step, where numpy yields [inf] or [nan], is outside
    the exact-number idealisation. *)
Definition calculate_stats (concentration_array : list R) (t_days : option (list Q))
  : option Stats :=
  match py_max concentration_array with
  | None => Some zero_stats
  | Some peak =>
      if Rle_dec peak 0 then Some zero_stats
      else
        max_slope ←
          match t_days with
          | Some ts =>
              if (1 <? length ts)%nat then
                let dy := diff Rminus concentration_array in
                let dt := diff Qminus ts in
                ratio ← broadcast2 (fun y x => (y / Q2R x)%R) dy dt;
                py_max (map Rabs ratio)
              else Some 0%R
          | None => Some 0%R
          end;
        let is_peak := fun val => Rgeb val (peak * 0.99)%R in
        let first_peak_idx :=
          default 0%nat (find_first_from is_peak 0 concentration_array) in
        let last_peak_idx :=
          default first_peak_idx (find_last_from is_peak 0 concentration_array) in
        let steady_state_array :=
          if (first_peak_idx =? last_peak_idx)%nat
          then drop first_peak_idx concentration_array
          else take (last_peak_idx + 1 - first_peak_idx)
                    (drop first_peak_idx concentration_array) in
        let trough := default peak (py_min steady_state_array) in
        let avg :=
          match steady_state_array with
          | [] => peak
          | _ => (py_sum steady_state_array / INR (length steady_state_array))%R
          end in
        let fluctuation :=
          if Rgt_dec avg 0 then ((peak - trough) / avg * 100)%R else 0%R in
        Some {| peak := peak; trough := trough; avg := avg;
                fluctuation := fluctuation; max_slope := max_slope |}
  end.

(** The prediction [calculate_rmse] compares a lab point with: the curve
    at the grid index nearest to the lab day.  [None] stands for the
    [ValueError] of [argmin] on an empty grid or the [IndexError] of
    [y_conc[idx]]. *)
Definition nearest_prediction (t_days : list Q) (y_conc : list R) (day : Q)
  : option R :=
  idx ← np.argmin py.Qltb (map (fun t => Qabs (t - day)) t_days);
  y_conc !! idx.

(** [calculate_rmse]: the outer [None] is an exception, the inner one the
    [None] returned when there are no lab points. *)
Definition calculate_rmse (t_days : list Q) (y_conc : list R)
    (lab_points : list (Q * R)) : option (option R) :=
  match lab_points with
  | [] => Some None
  | _ =>
      sq_errors ←
        mapM (fun point : Q * R =>
                prediction ← nearest_prediction t_days y_conc (fst point);
                Some ((prediction - snd point) * (prediction - snd point))%R)
             lab_points;
      match sq_errors with
      | [] => Some None
      | _ => Some (Some (sqrt (py_sum sq_errors / INR (length sq_errors))))
      end
  end.

Definition check_slope_risk (slope current_conc : R) : bool :=
  let absolute_risk := Rgtb (Rabs slope) 1000.0 in
  let relative_risk :=
    if Rgt_dec current_conc 0 then Rgtb (Rabs slope / current_conc) 0.5
    else false in
  absolute_risk || relative_risk.

(** The functions below label their result through [t], the lookup of a
    key in the table of the session's language; the table is a parameter
    here. *)
Section Translated.

Variable t : string -> string.

(** [calculate_vte_risk_score]; [None] stands for the [ZeroDivisionError]
    of the BMI when the height is 0. *)
Definition calculate_vte_risk_score (weight height : Q) (age : Z)
    (is_smoker history_vte : bool) (surgery_risk_level : string)
    (has_oral_estrogen : bool) : option (Z * string * string) :=
  let h2 := ((height / 100) * (height / 100))%Q in
  if Qeq_bool h2 0 then None
  else
    let bmi := (weight / h2)%Q in
    let score := 0%Z in
    let score := if Qle_bool 30 bmi then (score + 2)%Z
                 else if Qle_bool 25 bmi then (score + 1)%Z else score in
    let score := if is_smoker then (score + 2)%Z else score in
    let score := if (60 <=? age)%Z then (score + 2)%Z
                 else if (40 <=? age)%Z then (score + 1)%Z else score in
    let score := if history_vte then (score + 3)%Z else score in
    let risk_map : gmap string Z :=
      list_to_map [("HIGH", 3%Z); ("MEDIUM", 2%Z); ("LOW", 1%Z)] in
    let score := (score + default 0%Z (risk_map !! surgery_risk_level))%Z in
    let score := if has_oral_estrogen then (score + 1)%Z else score in
    if (score <=? 2)%Z then Some (score, t "risk_low", "green")
    else if (score <=? 4)%Z then Some (score, t "risk_mod", "orange")
    else if (score <=? 6)%Z then Some (score, t "risk_high", "red")
    else Some (score, t "risk_vhigh", "#8B0000").

Definition get_reliability_info (rmse : option R) (unit_choice : string)
  : string * string :=
  match rmse with
  | None => ("N/A", "grey")
  | Some rmse =>
      let rmse_pg :=
        if String.eqb unit_choice "pg/mL" then rmse else (rmse / 3.6713)%R in
      if Rlt_dec rmse_pg 20 then (t "rel_exc", "green")
      else if Rlt_dec rmse_pg 50 then (t "rel_good", "orange")
      else (t "rel_poor", "red")
  end.

(** [predict_feminization_stage]: label and description of the predicted
    Tanner stage. *)
Definition predict_feminization_stage (total_hrt_months avg_e2 : R)
  : string * string :=
  let efficiency :=
    if Rlt_dec avg_e2 50 then 0.5%R
    else if Rlt_dec avg_e2 100 then 0.8%R
    else 1.0%R in
  let effective_months := (total_hrt_months * efficiency)%R in
  if Rlt_dec effective_months 3 then (t "ts_1_label", t "ts_1_desc")
  else if Rlt_dec effective_months 6 then (t "ts_2_label", t "ts_2_desc")
  else if Rlt_dec effective_months 12 then (t "ts_3_label", t "ts_3_desc")
  else if Rlt_dec effective_months 24 then (t "ts_4_label", t "ts_4_desc")
  else (t "ts_5_label", t "ts_5_desc").

End Translated.

End utils.

(** ** Concrete inputs used in the examples below *)

Definition ev_weekly : ScheduleEntry :=
  {| name := "Estradiol Valerate (Progynon Depot)"; dose := 10; interval := 1;
     is_cycling := None; offset := None; duration := None |}.

(** A daily cycling entry with the given number of dosing days. *)
Definition ev_cycling (duration_days : Q) : ScheduleEntry :=
  {| name := "Estradiol Valerate (Progynon Depot)"; dose := 10; interval := 1;
     is_cycling := Some true; offset := None; duration := Some duration_days |}.

Definition patient : HormoneAnalyzer := init 60 25 20 20 22 170.

(** A caller's store: the schedule list at 1, its single entry at 2, the
    calibration factors at 3. *)
Definition caller_store : gmap store.loc store.obj :=
  list_to_map [
    (1%positive, store.OList [2%positive]);
    (2%positive, store.OEntry ev_weekly);
    (3%positive, store.ODict {[ "Injection" := 2.0%R ]})
  ].

(** ** Spec-side definitions, compared with the code below *)

(** "x clipped to [lo, hi]", spelled out by cases. *)
Definition clipped_to (x lo hi : Q) : Q :=
  if py.Qltb x lo then lo else if py.Qltb hi x then hi else x.

(** An entry the simulator does not skip: interval at least 0.01 days and
    drug key present in the drug store. *)
Definition entry_active (item : ScheduleEntry) : bool :=
  Qle_bool 0.01 (interval item) && bool_decide (is_Some (data.DRUG_DB !! name item)).

(** Pointwise sum of two concentration sequences. *)
Definition pointwise_sum (c1 c2 : list R) : list R := zip_with Rplus c1 c2.

(** Summing the outputs of two simulations over the same grid. *)
Definition sum_results (r1 r2 : option (list Q * list R)) : option (list Q * list R) :=
  match r1, r2 with
  | Some (t_days, c1), Some (_, c2) => Some (t_days, pointwise_sum c1 c2)
  | _, _ => None
  end.

(** The time of the peak of a one-compartment curve with rates [ka], [ke]:
    the target equation of the solver is [t_peak = peak_time ka ke]. *)
Definition peak_time (ka ke : R) : R := ((ln ka - ln ke) / (ka - ke))%R.


(** The coefficient of [bateman_function], before the exponentials: the
    same computation up to [coefficient]. *)
Definition bateman_coefficient (self : HormoneAnalyzer)
    (dose ka ke f ester_factor : R) (route_type : string) : R :=
  let vd_const := Q2R (default 4.0%Q (data.ROUTE_CONSTANTS !! route_type)) in
  let fat_mod := Q2R (_get_body_fat_adjustment self) in
  let bmi_mod := Q2R (_get_bmi_adjustment self) in
  let current_total_volume := (Q2R (weight self) * vd_const * fat_mod * bmi_mod)%R in
  let first_pass_mod := Q2R (_get_first_pass_adjustment self route_type) in
  let liver_func_mod := Q2R (_get_liver_metabolism_factor self) in
  let adjusted_f := (f * first_pass_mod * liver_func_mod)%R in
  let effective_dose_ng := (dose * adjusted_f * ester_factor * 1000000)%R in
  let ka := if Req_dec_T ka ke then (ke + 1e-5)%R else ka in
  ((effective_dose_ng * ka) / (current_total_volume * (ka - ke)))%R.

(** What one dose at [dose_t] adds at the grid point [t]: the update
    [total_conc[valid_mask] += conc * cf] of [add_dose], read at one index. *)
Definition dose_update (self : HormoneAnalyzer) (dose ka ke f ef : R)
    (route_type : string) (cf : R) (dose_t t : Q) (c : R) : R :=
  if Qle_bool 0 (t - dose_t) then
    (c + bateman_function self (Q2R (t - dose_t)) dose ka ke f ef route_type * cf)%R
  else c.

(** The condition of the list comprehensions of [apply_cessation]. *)
Definition kept (stop_day resume_day : option Z) (dt : Q) : bool :=
  match stop_day with
  | Some s =>
      match resume_day with
      | Some r => Qle_bool dt (inject_Z (s * 24)) || Qle_bool (inject_Z (r * 24)) dt
      | None => Qle_bool dt (inject_Z (s * 24))
      end
  | None => true
  end.

(** The schedule entry with its dose multiplied by [c]. *)
Definition scale_dose (c : Q) (item : ScheduleEntry) : ScheduleEntry :=
  {| name := name item; dose := (c * dose item)%Q; interval := interval item;
     is_cycling := is_cycling item; offset := offset item;
     duration := duration item |}.

(** * Properties *)

(** ** Python and numpy primitives *)

Lemma Qltb_lt (x y : Q) : py.Qltb x y = true <-> (x < y)%Q.
Proof.
  unfold py.Qltb. rewrite negb_true_iff, <- not_true_iff_false, Qle_bool_iff.
  split; [apply Qnot_le_lt | apply Qlt_not_le].
Qed.

Lemma Qltb_ge (x y : Q) : py.Qltb x y = false <-> (y <= x)%Q.
Proof.
  unfold py.Qltb. rewrite negb_false_iff. apply Qle_bool_iff.
Qed.

Lemma Qle_bool_gt (x y : Q) : Qle_bool x y = false <-> (y < x)%Q.
Proof.
  rewrite <- not_true_iff_false, Qle_bool_iff.
  split; [apply Qnot_le_lt | apply Qlt_not_le].
Qed.

Lemma clipQ_clipped_to (x lo hi : Q) :
  (lo <= hi)%Q -> (np.clipQ x lo hi == clipped_to x lo hi)%Q.
Proof.
  intros Hlh. unfold np.clipQ, clipped_to.
  destruct (py.Qltb x lo) eqn:E1.
  - apply Qltb_lt in E1.
    rewrite (Q.max_r x lo) by (apply Qlt_le_weak; exact E1).
    apply Q.min_l; exact Hlh.
  - apply Qltb_ge in E1. rewrite (Q.max_l x lo) by exact E1.
    destruct (py.Qltb hi x) eqn:E2.
    + apply Qltb_lt in E2. apply Q.min_r, Qlt_le_weak; exact E2.
    + apply Qltb_ge in E2. apply Q.min_l; exact E2.
Qed.

Lemma clipped_to_compat (x y lo hi : Q) :
  (x == y)%Q -> (clipped_to x lo hi == clipped_to y lo hi)%Q.
Proof.
  intros E. unfold clipped_to, py.Qltb. rewrite !E.
  destruct (Qle_bool lo y); simpl; [| reflexivity].
  destruct (Qle_bool y hi); simpl; [exact E | reflexivity].
Qed.

Lemma clipQ_bounds (x lo hi : Q) :
  (lo <= hi)%Q -> (lo <= np.clipQ x lo hi <= hi)%Q.
Proof.
  intros Hlh. unfold np.clipQ. split.
  - apply Q.min_glb; [apply Q.le_max_r | exact Hlh].
  - apply Q.le_min_r.
Qed.


Lemma int_ge_1 (x : Q) : (1 <= x)%Q -> (1 <= py.int x)%Z.
Proof.
  destruct x as [p q]. unfold Qle, py.int. simpl. intros H.
  apply Z.quot_le_lower_bound; lia.
Qed.

Lemma int_inject_mult (d r : Z) : py.int (inject_Z d * inject_Z r) = (d * r)%Z.
Proof. unfold py.int. simpl. rewrite Z.quot_1_r. reflexivity. Qed.

Lemma range_length (n : Z) : length (py.range n) = Z.to_nat n.
Proof. unfold py.range. rewrite length_map, length_seq. reflexivity. Qed.

Lemma range_In (n i : Z) : In i (py.range n) <-> (0 <= i < n)%Z.
Proof.
  unfold py.range. rewrite in_map_iff. split.
  - intros (k & <- & Hk). apply in_seq in Hk. lia.
  - intros Hi. exists (Z.to_nat i). rewrite in_seq. split; lia.
Qed.


Lemma range_lookup (n : Z) (i : nat) (z : Z) :
  py.range n !! i = Some z -> z = Z.of_nat i /\ (Z.of_nat i < n)%Z.
Proof.
  unfold py.range. rewrite list_lookup_fmap. intros H.
  destruct (seq 0 (Z.to_nat n) !! i) as [k |] eqn:E; [| discriminate].
  apply lookup_seq in E as [-> Hlt]. simpl in H. injection H as <-. lia.
Qed.

Lemma filter_all {A} (f : A -> bool) (l : list A) :
  (forall x, In x l -> f x = true) -> List.filter f l = l.
Proof.
  induction l as [| a l IH]; simpl; intros H; [reflexivity |].
  rewrite (H a) by (left; reflexivity). f_equal. apply IH. intros x Hx.
  apply H. right; exact Hx.
Qed.


Lemma linspace_length stop num t_hours :
  np.linspace stop num = Some t_hours -> length t_hours = Z.to_nat num.
Proof.
  unfold np.linspace. destruct (num <? 0)%Z; [discriminate |].
  destruct (num =? 1)%Z eqn:E.
  - apply Z.eqb_eq in E. subst. intros [= <-]. reflexivity.
  - intros [= <-]. rewrite length_map, range_length. reflexivity.
Qed.

Lemma linspace_total stop num :
  (0 <= num)%Z ->
  exists t_hours, np.linspace stop num = Some t_hours /\ length t_hours = Z.to_nat num.
Proof.
  intros Hn. destruct (np.linspace stop num) as [t_hours |] eqn:E.
  - exists t_hours. split; [reflexivity | eapply linspace_length, E].
  - exfalso. unfold np.linspace in E.
    replace (num <? 0)%Z with false in E by (symmetry; apply Z.ltb_ge; lia).
    destruct (num =? 1)%Z; discriminate.
Qed.

(** Sample [i] of [np.linspace(0, stop, num)] is [i * stop / (num - 1)]
    and lies in [0, stop]. *)
Lemma linspace_lookup stop num t_hours (i : nat) t :
  (0 <= stop)%Q ->
  np.linspace stop num = Some t_hours -> t_hours !! i = Some t ->
  (t == inject_Z (Z.of_nat i) * (stop / inject_Z (num - 1)))%Q /\
  (0 <= t <= stop)%Q.
Proof.
  intros Hstop. unfold np.linspace. destruct (num <? 0)%Z; [discriminate |].
  destruct (num =? 1)%Z eqn:E.
  - apply Z.eqb_eq in E. subst. intros [= <-] Hi.
    destruct i; [| discriminate]. injection Hi as <-.
    split; [reflexivity | split; [apply Qle_refl | exact Hstop]].
  - apply Z.eqb_neq in E. intros [= <-]. rewrite list_lookup_fmap.
    destruct (py.range num !! i) as [z |] eqn:Ez; [| discriminate].
    intros [= <-]. apply range_lookup in Ez as [-> Hlt].
    split; [reflexivity |].
    assert (Hm : (0 < inject_Z (num - 1))%Q).
    { change 0%Q with (inject_Z 0). rewrite <- Zlt_Qlt. lia. }
    assert (Hi0 : (0 <= inject_Z (Z.of_nat i))%Q).
    { change 0%Q with (inject_Z 0). rewrite <- Zle_Qle. lia. }
    assert (Hstep : (0 <= stop / inject_Z (num - 1))%Q).
    { apply Qle_shift_div_l; [exact Hm |]. rewrite Qmult_0_l. exact Hstop. }
    split.
    + apply Qmult_le_0_compat; assumption.
    + apply Qle_trans with (inject_Z (num - 1) * (stop / inject_Z (num - 1)))%Q.
      * apply Qmult_le_compat_r; [| exact Hstep]. rewrite <- Zle_Qle. lia.
      * apply Qle_lteq. right. field.
        intros H0. rewrite H0 in Hm. discriminate.
Qed.

Lemma zeros_like_length {A} (l : list A) : length (np.zeros_like l) = length l.
Proof. unfold np.zeros_like. apply length_map. Qed.

Lemma argmin_from_bound {A} (ltb : A -> A -> bool) best_i best i (l : list A) :
  (best_i < i)%nat -> (np.argmin_from ltb best_i best i l < i + length l)%nat.
Proof.
  revert best_i best i. induction l as [| x l IH]; intros best_i best i H; simpl; [lia |].
  destruct (ltb x best).
  - specialize (IH i x (S i) ltac:(lia)). lia.
  - specialize (IH best_i best (S i) ltac:(lia)). lia.
Qed.

Lemma argmin_total {A} (ltb : A -> A -> bool) (l : list A) :
  l <> [] -> exists i, np.argmin ltb l = Some i /\ (i < length l)%nat.
Proof.
  destruct l as [| x l]; [congruence |]. intros _. eexists. split; [reflexivity |].
  simpl. pose proof (argmin_from_bound ltb 0%nat x 1%nat l ltac:(lia)). lia.
Qed.

Lemma where_from_bound (i : nat) (mask : list bool) :
  Forall (fun idx => (idx < i + length mask)%nat) (np.where_from i mask).
Proof.
  revert i. induction mask as [| b mask IH]; intros i; simpl; [constructor |].
  specialize (IH (S i)).
  assert (IH' : Forall (fun idx => (idx < i + S (length mask))%nat)
                       (np.where_from (S i) mask)).
  { eapply Forall_impl; [exact IH |]. intros idx Hidx. simpl in Hidx. lia. }
  destruct b; [constructor; [lia | exact IH'] | exact IH'].
Qed.

Lemma select_length {A} (mask : list bool) (a : list A) (i : nat) :
  length mask = length a ->
  length (np.select mask a) = length (np.where_from i mask).
Proof.
  revert a i. induction mask as [| b mask IH]; intros [| x a] i H;
    simpl in *; try reflexivity; try discriminate.
  destruct b; simpl; rewrite (IH a (S i)) by lia; reflexivity.
Qed.

Lemma select_nonempty {A} (mask : list bool) (a : list A) :
  length mask = length a -> np.any mask = true -> np.select mask a <> [].
Proof.
  revert a. induction mask as [| b mask IH]; intros [| x a] H Hany;
    simpl in *; try discriminate.
  destruct b; [discriminate |]. apply IH; [lia | exact Hany].
Qed.

Lemma zip_with_sum_commute (g : Q -> R -> R) :
  (forall s x y, g s (x + y)%R = (x + g s y)%R) ->
  forall sh a b,
    zip_with g sh (pointwise_sum a b) = pointwise_sum a (zip_with g sh b).
Proof.
  intros Hg. unfold pointwise_sum.
  induction sh as [| s sh IH]; intros [| x a] [| y b]; simpl; try reflexivity.
  rewrite Hg, IH. reflexivity.
Qed.

Lemma pointwise_sum_zeros {A} (a : list R) (l : list A) :
  length a = length l -> pointwise_sum a (np.zeros_like l) = a.
Proof.
  unfold pointwise_sum, np.zeros_like. revert l.
  induction a as [| x a IH]; intros [| y l] H; simpl in *; try reflexivity; try discriminate.
  rewrite Rplus_0_r, IH by lia. reflexivity.
Qed.

Example int_truncates : py.int 2.7 = 2%Z /\ py.int (-2.7) = (-2)%Z /\ py.int 0.5 = 0%Z.
Proof. repeat split. Qed.

Example linspace_three : map Qred <$> np.linspace 24 3 = Some [0; 12; 24]%Q.
Proof. reflexivity. Qed.

Example linspace_negative : np.linspace 24 (-1) = None.
Proof. reflexivity. Qed.

Example arange_three : map Qred (np.arange 72 24) = [0; 24; 48]%Q.
Proof. reflexivity. Qed.

Example argmin_first_minimum : np.argmin py.Qltb [3; 1; 2; 1]%Q = Some 1%nat.
Proof. reflexivity. Qed.

Example where_select :
  np.where_ [false; true; true] = [1; 2]%nat /\
  np.select [false; true; true] [10; 20; 30]%Z = [20; 30]%Z.
Proof. split; reflexivity. Qed.

(** ** First-pass adjustment *)

Example first_pass_age_25 :
  (_get_first_pass_adjustment patient "Oral" == 1)%Q.
Proof. vm_compute. reflexivity. Qed.

Example first_pass_age_200 :
  (_get_first_pass_adjustment (init 60 200 20 20 22 170) "Anti-Androgen" == 1.15)%Q.
Proof. vm_compute. reflexivity. Qed.

(** C9: for every patient age and route type, the first-pass adjustment is
    [1 + (age - 25) * 0.002] clipped to [0.85, 1.15] when the route is
    "Oral" or "Anti-Androgen", and exactly [1.0] for every other route. *)
Theorem first_pass_adjustment_spec (self : HormoneAnalyzer) (route_type : string) :
  (route_type = "Oral" \/ route_type = "Anti-Androgen" ->
     (_get_first_pass_adjustment self route_type ==
        clipped_to (1 + (inject_Z (age self) - 25) * 0.002) 0.85 1.15)%Q) /\
  (route_type <> "Oral" -> route_type <> "Anti-Androgen" ->
     _get_first_pass_adjustment self route_type = 1.0%Q).
Proof.
  unfold _get_first_pass_adjustment, oral_routes. split.
  - intros Hr. rewrite bool_decide_eq_true_2 by (destruct Hr; subst; set_solver).
    rewrite clipQ_clipped_to by discriminate.
    assert (E : (1.0 + inject_Z (age self - 25) * 0.002 ==
                 1 + (inject_Z (age self) - 25) * 0.002)%Q).
    { unfold Qeq; simpl; lia. }
    apply clipped_to_compat, E.
  - intros H1 H2. rewrite bool_decide_eq_false_2; [reflexivity |].
    intros Hin. apply list_elem_of_In in Hin. simpl in Hin. intuition congruence.
Qed.

Lemma first_pass_adjustment_spec_witness :
  (_get_first_pass_adjustment (init 60 200 20 20 22 170) "Oral" ==
     clipped_to (1 + (inject_Z 200 - 25) * 0.002) 0.85 1.15)%Q /\
  _get_first_pass_adjustment (init 60 200 20 20 22 170) "Injection" = 1.0%Q.
Proof.
  split.
  - apply (proj1 (first_pass_adjustment_spec (init 60 200 20 20 22 170) "Oral")).
    left; reflexivity.
  - apply (proj2 (first_pass_adjustment_spec (init 60 200 20 20 22 170) "Injection"));
      discriminate.
Defined.

(** ** Cessation and resumption *)

(** C1 (amended): with a stop day [S] and no resume day the simulator
    retains exactly the dose times [<= S*24] (it drops those strictly after
    [S*24]; a dose at [S*24] itself stays); with a stop day [S] and a resume
    day [R] it drops exactly the dose times strictly between [S*24] and
    [R*24]. *)
Theorem cessation_retained (total_hours : Q) (item : ScheduleEntry) (S R : Z) (dt : Q) :
  (In dt (retained_dose_times total_hours (Some S) None item) <->
     In dt (all_dose_times total_hours item) /\ (dt <= inject_Z (S * 24))%Q) /\
  (In dt (retained_dose_times total_hours (Some S) (Some R) item) <->
     In dt (all_dose_times total_hours item) /\
     ~ (inject_Z (S * 24) < dt /\ dt < inject_Z (R * 24))%Q).
Proof.
  unfold retained_dose_times, apply_cessation. rewrite !filter_In. split.
  - rewrite Qle_bool_iff. reflexivity.
  - rewrite orb_true_iff, !Qle_bool_iff. split; intros [Hin H]; split; try exact Hin.
    + intros [H1 H2]. destruct H as [H | H].
      * exact (Qlt_not_le _ _ H1 H).
      * exact (Qlt_not_le _ _ H2 H).
    + destruct (Qlt_le_dec (inject_Z (S * 24)) dt) as [H1 | H1]; [| left; exact H1].
      destruct (Qlt_le_dec dt (inject_Z (R * 24))) as [H2 | H2]; [| right; exact H2].
      exfalso. apply H. split; assumption.
Qed.

Example dose_times_ex :
  map Qred (retained_dose_times (3 * 24) (Some 1%Z) None ev_weekly) = [0; 24]%Q.
Proof. vm_compute. reflexivity. Qed.

(** C1 (as stated) fails: with daily doses over three days and stop day 1
    and no resume day, the dose at hour 24 = 1*24 is retained. *)
Lemma cessation_keeps_dose_at_stop :
  exists dt, In dt (retained_dose_times (3 * 24) (Some 1%Z) None ev_weekly) /\
             (inject_Z (1 * 24) <= dt)%Q.
Proof.
  exists (1 * (1 * 24))%Q. split.
  - vm_compute. right; left; reflexivity.
  - vm_compute. discriminate.
Qed.

(** ** The accumulator of the superposition loop *)

Section Accumulator.

Variables (self : HormoneAnalyzer) (t_hours : list Q).

Section Doses.

Variables (dose ka ke f ef : R) (route_type : string) (cf : R).

Lemma add_dose_length acc dose_t :
  length acc = length t_hours ->
  length (add_dose self t_hours dose ka ke f ef route_type cf acc dose_t) = length t_hours.
Proof.
  intros H. unfold add_dose. destruct (np.any _); [| exact H].
  rewrite length_zip_with, length_map. lia.
Qed.

Lemma fold_add_dose_length doses acc :
  length acc = length t_hours ->
  length (fold_left (add_dose self t_hours dose ka ke f ef route_type cf) doses acc)
  = length t_hours.
Proof.
  revert acc. induction doses as [| dt doses IH]; intros acc H; simpl; [exact H |].
  apply IH, add_dose_length, H.
Qed.

(** Adding a dose commutes with adding a fixed sequence to the
    accumulator: the update is [c + ...] at every valid grid point. *)
Lemma add_dose_sum a b dose_t :
  add_dose self t_hours dose ka ke f ef route_type cf (pointwise_sum a b) dose_t =
  pointwise_sum a (add_dose self t_hours dose ka ke f ef route_type cf b dose_t).
Proof.
  unfold add_dose. destruct (np.any _); [| reflexivity].
  apply zip_with_sum_commute. intros s x y.
  destruct (Qle_bool 0 s); [ring | reflexivity].
Qed.

Lemma fold_add_dose_sum doses a b :
  fold_left (add_dose self t_hours dose ka ke f ef route_type cf) doses (pointwise_sum a b) =
  pointwise_sum a (fold_left (add_dose self t_hours dose ka ke f ef route_type cf) doses b).
Proof.
  revert b. induction doses as [| dt doses IH]; intros b; simpl; [reflexivity |].
  rewrite add_dose_sum. apply IH.
Qed.

End Doses.

Variables (total_hours : Q) (cf : gmap string R) (stop_day resume_day : option Z).

Lemma simulate_item_length acc item :
  length acc = length t_hours ->
  length (simulate_item self t_hours total_hours cf stop_day resume_day acc item)
  = length t_hours.
Proof.
  intros H. unfold simulate_item.
  destruct (py.Qltb _ _); [exact H |].
  destruct (data.DRUG_DB !! _) as [drug_info |]; [| exact H].
  destruct (_get_ka_ke drug_info). apply fold_add_dose_length, H.
Qed.

Lemma fold_simulate_item_length sched acc :
  length acc = length t_hours ->
  length (fold_left (simulate_item self t_hours total_hours cf stop_day resume_day)
                    sched acc) = length t_hours.
Proof.
  revert acc. induction sched as [| item sched IH]; intros acc H; simpl; [exact H |].
  apply IH, simulate_item_length, H.
Qed.


(** The two [continue]s. *)
Lemma simulate_item_inactive acc item :
  entry_active item = false ->
  simulate_item self t_hours total_hours cf stop_day resume_day acc item = acc.
Proof.
  unfold entry_active, simulate_item, py.Qltb. intros H.
  destruct (Qle_bool 0.01 (interval item)); simpl in *; [| reflexivity].
  apply bool_decide_eq_false in H.
  destruct (data.DRUG_DB !! name item) as [drug_info |]; [| reflexivity].
  exfalso. apply H. eexists. reflexivity.
Qed.

Lemma fold_simulate_item_filter sched acc :
  fold_left (simulate_item self t_hours total_hours cf stop_day resume_day) sched acc =
  fold_left (simulate_item self t_hours total_hours cf stop_day resume_day)
            (List.filter entry_active sched) acc.
Proof.
  revert acc. induction sched as [| item sched IH]; intros acc; simpl; [reflexivity |].
  destruct (entry_active item) eqn:E; simpl.
  - apply IH.
  - rewrite simulate_item_inactive by exact E. apply IH.
Qed.

Lemma simulate_item_sum a b item :
  simulate_item self t_hours total_hours cf stop_day resume_day (pointwise_sum a b) item =
  pointwise_sum a (simulate_item self t_hours total_hours cf stop_day resume_day b item).
Proof.
  unfold simulate_item.
  destruct (py.Qltb _ _); [reflexivity |].
  destruct (data.DRUG_DB !! _) as [drug_info |]; [| reflexivity].
  destruct (_get_ka_ke drug_info). apply fold_add_dose_sum.
Qed.

Lemma fold_simulate_item_sum sched a b :
  fold_left (simulate_item self t_hours total_hours cf stop_day resume_day) sched
            (pointwise_sum a b) =
  pointwise_sum a (fold_left (simulate_item self t_hours total_hours cf stop_day resume_day)
                             sched b).
Proof.
  revert b. induction sched as [| item sched IH]; intros b; simpl; [reflexivity |].
  rewrite simulate_item_sum. apply IH.
Qed.

End Accumulator.

(** ** The simulator as a fold over the schedule *)

(** The early return on an empty schedule agrees with the loop. *)
Lemma simulate_schedule_fold self schedule_list days resolution cf stop_day resume_day :
  simulate_schedule self schedule_list days resolution cf stop_day resume_day =
  t_hours ← np.linspace (days * 24)%Q (py.int (days * inject_Z resolution));
  Some (map (fun t => (t / 24)%Q) t_hours,
        fold_left (simulate_item self t_hours (days * 24)%Q (default ∅ cf)
                                 stop_day resume_day)
                  schedule_list (np.zeros_like t_hours)).
Proof.
  unfold simulate_schedule. destruct schedule_list; reflexivity.
Qed.

(** The two components of the result have the length of the grid. *)
Lemma simulate_schedule_lengths self sched days resolution cf stop_day resume_day t_days conc :
  simulate_schedule self sched days resolution cf stop_day resume_day = Some (t_days, conc) ->
  exists t_hours,
    np.linspace (days * 24)%Q (py.int (days * inject_Z resolution)) = Some t_hours /\
    t_days = map (fun t => (t / 24)%Q) t_hours /\
    length conc = length t_hours.
Proof.
  rewrite simulate_schedule_fold.
  destruct (np.linspace _ _) as [t_hours |]; simpl; [| discriminate].
  intros [= <- <-]. exists t_hours. repeat split.
  apply fold_simulate_item_length, zeros_like_length.
Qed.

Lemma simulate_schedule_total self sched days resolution cf stop_day resume_day :
  (0 <= py.int (days * inject_Z resolution))%Z ->
  exists t_days conc,
    simulate_schedule self sched days resolution cf stop_day resume_day
      = Some (t_days, conc) /\
    length t_days = Z.to_nat (py.int (days * inject_Z resolution)) /\
    length conc = Z.to_nat (py.int (days * inject_Z resolution)).
Proof.
  intros Hn. destruct (linspace_total (days * 24)%Q _ Hn) as (t_hours & Hlin & Hlen).
  rewrite simulate_schedule_fold, Hlin. simpl. eexists. eexists.
  split; [reflexivity |]. rewrite length_map. split; [exact Hlen |].
  rewrite <- Hlen. apply fold_simulate_item_length, zeros_like_length.
Qed.


(** ** The time grid *)

(** C4 (amended): for every non-negative integer horizon [d] (days) and
    resolution [r] (samples/day) the time axis is a uniform grid of exactly
    [d*r] samples over the closed interval [0, d*24] hours: sample [i] is at
    [i * (d*24) / (d*r - 1)] hours, every sample lies in [0, d*24], and with
    two or more samples the last one is the right endpoint [d*24] itself. *)
Theorem time_grid_spec self sched (d r : Z) cf stop_day resume_day :
  (0 <= d)%Z -> (0 <= r)%Z ->
  exists t_days conc,
    simulate_schedule self sched (inject_Z d) r cf stop_day resume_day
      = Some (t_days, conc) /\
    length t_days = Z.to_nat (d * r) /\
    length conc = Z.to_nat (d * r) /\
    (forall (i : nat) t, t_days !! i = Some t ->
       (t * 24 == inject_Z (Z.of_nat i) * (inject_Z d * 24 / inject_Z (d * r - 1)))%Q /\
       (0 <= t * 24 <= inject_Z d * 24)%Q) /\
    ((2 <= d * r)%Z ->
     exists t, t_days !! (Z.to_nat (d * r) - 1)%nat = Some t /\
               (t * 24 == inject_Z d * 24)%Q).
Proof.
  intros Hd Hr.
  assert (Hstop : (0 <= inject_Z d * 24)%Q).
  { apply Qmult_le_0_compat; [| discriminate].
    change 0%Q with (inject_Z 0). rewrite <- Zle_Qle. exact Hd. }
  destruct (simulate_schedule self sched (inject_Z d) r cf stop_day resume_day)
    as [[t_days conc] |] eqn:Hsim.
  2:{ exfalso. rewrite simulate_schedule_fold, int_inject_mult in Hsim.
      unfold np.linspace in Hsim.
      replace (d * r <? 0)%Z with false in Hsim by (symmetry; apply Z.ltb_ge; lia).
      destruct (d * r =? 1)%Z; discriminate. }
  exists t_days, conc. split; [reflexivity |].
  apply simulate_schedule_lengths in Hsim as (t_hours & Hlin & -> & Hlen).
  rewrite int_inject_mult in Hlin.
  pose proof (linspace_length _ _ _ Hlin) as Hn.
  assert (Hlk : forall (i : nat) t,
             map (fun t => (t / 24)%Q) t_hours !! i = Some t ->
             exists th, t_hours !! i = Some th /\ (t * 24 == th)%Q).
  { intros i t. rewrite list_lookup_fmap.
    destruct (t_hours !! i) as [th |]; [| discriminate].
    intros [= <-]. exists th. split; [reflexivity | field]. }
  rewrite length_map. repeat split.
  - exact Hn.
  - rewrite Hlen. exact Hn.
  - apply Hlk in H as (th & Hth & ->).
    apply (linspace_lookup _ _ _ _ _ Hstop Hlin Hth).
  - apply Hlk in H as (th & Hth & ->).
    apply (linspace_lookup _ _ _ _ _ Hstop Hlin Hth).
  - apply Hlk in H as (th & Hth & ->).
    apply (linspace_lookup _ _ _ _ _ Hstop Hlin Hth).
  - intros Hn2.
    destruct (lookup_lt_is_Some_2 (map (fun t => (t / 24)%Q) t_hours)
                (Z.to_nat (d * r) - 1)) as [t Ht].
    { rewrite length_map, Hn. lia. }
    exists t. split; [exact Ht |].
    apply Hlk in Ht as (th & Hth & ->).
    destruct (linspace_lookup _ _ _ _ _ Hstop Hlin Hth) as [-> _].
    replace (Z.of_nat (Z.to_nat (d * r) - 1)) with (d * r - 1)%Z by lia.
    field. intros H0.
    assert (Hm : (0 < inject_Z (d * r - 1))%Q).
    { change 0%Q with (inject_Z 0). rewrite <- Zlt_Qlt. lia. }
    rewrite H0 in Hm. discriminate.
Qed.

Lemma time_grid_spec_witness :
  exists t_days conc,
    simulate_schedule patient [ev_weekly] (inject_Z 30) 24 None None None
      = Some (t_days, conc) /\
    length t_days = Z.to_nat (30 * 24) /\
    length conc = Z.to_nat (30 * 24) /\
    (forall (i : nat) t, t_days !! i = Some t ->
       (t * 24 == inject_Z (Z.of_nat i) * (inject_Z 30 * 24 / inject_Z (30 * 24 - 1)))%Q /\
       (0 <= t * 24 <= inject_Z 30 * 24)%Q) /\
    ((2 <= 30 * 24)%Z ->
     exists t, t_days !! (Z.to_nat (30 * 24) - 1)%nat = Some t /\
               (t * 24 == inject_Z 30 * 24)%Q).
Proof.
  apply (time_grid_spec patient [ev_weekly] 30 24 None None None); lia.
Defined.

(** C4 (as stated) fails: with a horizon of one day and two samples per
    day the grid is [0, 24] hours, so the right endpoint [1*24] is in it. *)
Lemma time_grid_contains_right_endpoint :
  exists t_days conc,
    simulate_schedule patient [] 1 2 None None None = Some (t_days, conc) /\
    length t_days = 2%nat /\
    Exists (fun t => (t * 24 == 1 * 24)%Q) t_days.
Proof.
  eexists. eexists. split; [reflexivity |]. split; [reflexivity |].
  right. left. reflexivity.
Qed.

(** ** Skipped entries *)

Lemma entry_active_false (item : ScheduleEntry) :
  entry_active item = false <->
  (interval item < 0.01)%Q \/ data.DRUG_DB !! name item = None.
Proof.
  unfold entry_active.
  rewrite andb_false_iff, Qle_bool_gt, bool_decide_eq_false, eq_None_not_Some.
  reflexivity.
Qed.

(** C7: the simulator's output equals its output on the schedule with
    every entry whose drug key is absent from the drug store or whose
    interval is below 0.01 days removed; such an entry leaves the running
    total as it is and raises nothing. *)
Theorem skipped_entries_contribute_nothing
    self sched days resolution cf stop_day resume_day :
  simulate_schedule self sched days resolution cf stop_day resume_day =
  simulate_schedule self (List.filter entry_active sched) days resolution cf
                    stop_day resume_day /\
  (forall item,
     In item (List.filter entry_active sched) <->
     In item sched /\
     ~ ((interval item < 0.01)%Q \/ data.DRUG_DB !! name item = None)).
Proof.
  split.
  - rewrite !simulate_schedule_fold.
    destruct (np.linspace _ _) as [t_hours |]; [| reflexivity]. simpl.
    rewrite fold_simulate_item_filter. reflexivity.
  - intros item. rewrite filter_In, <- entry_active_false, not_false_iff_true.
    reflexivity.
Qed.

(** ** Superposition *)

(** C3: simulating two schedules separately (same horizon, resolution,
    calibration factors, stop and resume days) and summing the two
    concentration sequences pointwise equals simulating the concatenated
    schedule, exactly, in exact real arithmetic. *)
Theorem simulate_schedule_superposition self s1 s2 days resolution cf stop_day resume_day :
  simulate_schedule self (s1 ++ s2) days resolution cf stop_day resume_day =
  sum_results
    (simulate_schedule self s1 days resolution cf stop_day resume_day)
    (simulate_schedule self s2 days resolution cf stop_day resume_day).
Proof.
  rewrite !simulate_schedule_fold.
  destruct (np.linspace _ _) as [t_hours |]; [| reflexivity]. simpl.
  f_equal. f_equal. rewrite fold_left_app.
  set (run := simulate_item self t_hours (days * 24)%Q (default ∅ cf) stop_day resume_day).
  rewrite <- (pointwise_sum_zeros (fold_left run s1 (np.zeros_like t_hours)) t_hours) at 1
    by (apply fold_simulate_item_length, zeros_like_length).
  apply fold_simulate_item_sum.
Qed.

(** ** Cycling entries *)




(** ** Concentration model *)

Local Open Scope R_scope.

Lemma exp_neg_bound (x : R) : 0 < x -> exp (- x) < / x.
Proof.
  intros Hx. rewrite exp_Ropp. apply Rinv_lt_contravar.
  - apply Rmult_lt_0_compat; [exact Hx | apply exp_pos].
  - pose proof (exp_ineq1_le x). lra.
Qed.

Lemma exp_le_compat (x y : R) : x <= y -> exp x <= exp y.
Proof.
  intros [H | ->]; [left; apply exp_increasing, H | right; reflexivity].
Qed.

(** A decaying difference of exponentials, scaled by any coefficient and
    floored at 0, tends to 0. *)
Lemma floored_decay_vanishes (coefficient ka ke : R) :
  0 < ke < ka ->
  forall eps, 0 < eps ->
  exists T, forall t, T <= t ->
    Rabs (Rmax (coefficient * (exp (- ke * t) - exp (- ka * t))) 0) < eps.
Proof.
  intros [Hke Hka] eps Heps.
  exists (Rabs coefficient / (ke * eps) + 1). intros t Ht.
  assert (Hpos : 0 < ke * eps) by (apply Rmult_lt_0_compat; assumption).
  assert (Hq : 0 <= Rabs coefficient / (ke * eps)).
  { apply Rmult_le_pos; [apply Rabs_pos | left; apply Rinv_0_lt_compat, Hpos]. }
  assert (Ht0 : 0 < t) by lra.
  assert (Hkt : 0 < ke * t) by (apply Rmult_lt_0_compat; assumption).
  assert (He1 : exp (- ke * t) < / (ke * t)).
  { replace (- ke * t) with (- (ke * t)) by ring. apply exp_neg_bound, Hkt. }
  assert (He2 : 0 < exp (- ka * t)) by apply exp_pos.
  assert (He21 : exp (- ka * t) <= exp (- ke * t)).
  { apply exp_le_compat. nra. }
  rewrite Rabs_pos_eq by apply Rmax_r.
  assert (Hsmall : Rabs coefficient * / (ke * t) < eps).
  { assert (Hc : Rabs coefficient < ke * t * eps).
    { assert (Rabs coefficient / (ke * eps) < t) by lra.
      apply (Rmult_lt_compat_r (ke * eps)) in H; [| exact Hpos].
      unfold Rdiv in H. rewrite Rmult_assoc, Rinv_l, Rmult_1_r in H by lra. lra. }
    apply (Rmult_lt_reg_r (ke * t)); [exact Hkt |].
    rewrite Rmult_assoc, Rinv_l, Rmult_1_r by lra. lra. }
  apply Rmax_case_strong; intros _; [| exact Heps].
  eapply Rle_lt_trans; [| exact Hsmall].
  eapply Rle_trans; [apply Rle_abs |]. rewrite Rabs_mult.
  apply Rmult_le_compat_l; [apply Rabs_pos |].
  rewrite Rabs_pos_eq by lra. lra.
Qed.

(** C5: for every patient, dose, bioavailability, ester factor, route and
    [ka > ke > 0], the single-dose concentration is exactly 0 at [t = 0],
    non-negative at every [t], and tends to 0 as [t] grows. *)
Theorem bateman_function_properties
    (self : HormoneAnalyzer) (dose ka ke f ester_factor : R) (route_type : string) :
  0 < ke < ka ->
  bateman_function self 0 dose ka ke f ester_factor route_type = 0 /\
  (forall t, 0 <= bateman_function self t dose ka ke f ester_factor route_type) /\
  (forall eps, 0 < eps ->
     exists T, forall t, T <= t ->
       Rabs (bateman_function self t dose ka ke f ester_factor route_type) < eps).
Proof.
  intros Hk. unfold bateman_function.
  destruct (Req_dec_T ka ke) as [E | _]; [lra |].
  repeat split.
  - rewrite !Rmult_0_r, exp_0, Rminus_diag, Rmult_0_r.
    apply Rmax_left. apply Rle_refl.
  - intros t. apply Rmax_r.
  - apply floored_decay_vanishes, Hk.
Qed.

Lemma bateman_function_properties_witness :
  bateman_function patient 0 10 2 1 1 0.76 "Injection" = 0 /\
  (forall t, 0 <= bateman_function patient t 10 2 1 1 0.76 "Injection") /\
  (forall eps, 0 < eps ->
     exists T, forall t, T <= t ->
       Rabs (bateman_function patient t 10 2 1 1 0.76 "Injection") < eps).
Proof.
  apply (bateman_function_properties patient 10 2 1 1 0.76 "Injection"). lra.
Defined.

(** ** Absorption solver *)

(** The flip-flop guard: whatever the iteration produced, the result is
    above [ke]. *)
Lemma solve_ka_above_ke (t_peak ke : R) :
  0 < t_peak -> ke < _solve_ka_newton t_peak ke.
Proof.
  intros Ht. unfold _solve_ka_newton.
  destruct (Rle_dec t_peak 0) as [H0 | _]; [lra |].
  match goal with |- context [newton_loop ?n ?a ?b ?c] =>
    generalize (newton_loop n a b c) end.
  intros ka. destruct (Rle_dec ka ke); lra.
Qed.


Lemma ke_pos (H : R) : 0 < H -> 0 < ln 2 / H.
Proof.
  intros HH. apply Rdiv_lt_0_compat; [| exact HH].
  pose proof ln_lt_2. lra.
Qed.




(** ** Calibration estimator *)










Lemma factor_at_trough_total lab_day lab_value t_sim c_other c_target :
  t_sim <> [] -> length c_other = length t_sim -> length c_target = length t_sim ->
  exists v, factor_at_trough lab_day lab_value t_sim c_other c_target = Some v.
Proof.
  intros Hne Ho Ht. unfold factor_at_trough.
  set (window_mask := map _ t_sim).
  assert (Hmask : length window_mask = length t_sim) by apply length_map.
  assert (Hidx : exists idx,
             (if np.any window_mask
              then trough_rel_idx ←
                     np.argmin np.Rltb
                       (np.select window_mask (zip_with Rplus c_other c_target));
                   np.where_ window_mask !! trough_rel_idx
              else np.argmin py.Qltb (map (fun t => Qabs (t - lab_day)) t_sim))
             = Some idx /\ (idx < length t_sim)%nat).
  { destruct (np.any window_mask) eqn:Hany.
    - assert (Hlen : length window_mask = length (zip_with Rplus c_other c_target)).
      { rewrite length_zip_with. lia. }
      destruct (argmin_total np.Rltb _ (select_nonempty _ _ Hlen Hany))
        as (rel & -> & Hrel). simpl.
      rewrite (select_length _ _ 0%nat Hlen) in Hrel.
      destruct (lookup_lt_is_Some_2 _ _ Hrel) as [idx Hlk].
      exists idx. split; [exact Hlk |].
      pose proof (where_from_bound 0 window_mask) as Hb.
      rewrite Forall_forall in Hb.
      specialize (Hb idx (list_elem_of_lookup_2 _ _ _ Hlk)). simpl in Hb. lia.
    - destruct (argmin_total py.Qltb (map (fun t => Qabs (t - lab_day)) t_sim))
        as (idx & -> & Hb).
      + destruct t_sim; [congruence | discriminate].
      + exists idx. split; [reflexivity |]. rewrite length_map in Hb. exact Hb. }
  destruct Hidx as (idx & -> & Hlt). simpl.
  destruct (lookup_lt_is_Some_2 c_other idx ltac:(lia)) as [conc_other ->].
  destruct (lookup_lt_is_Some_2 c_target idx ltac:(lia)) as [conc_target ->].
  simpl. destruct (Rlt_dec conc_target 0.1); eexists; reflexivity.
Qed.

Lemma calculate_calibration_factor_total
    self sched lab_day lab_value target_route current_factors :
  (0 <= lab_day)%Q ->
  exists v, calculate_calibration_factor self sched lab_day lab_value target_route
                                         current_factors = Some v.
Proof.
  intros Hday. unfold calculate_calibration_factor.
  destruct (Rle_dec lab_value 0); [eexists; reflexivity |].
  assert (Hn : (1 <= py.int ((lab_day + 1) * inject_Z 24))%Z).
  { apply int_ge_1. apply Qle_trans with ((0 + 1) * inject_Z 24)%Q; [discriminate |].
    apply Qmult_le_compat_r; [| discriminate]. apply Qplus_le_l. exact Hday. }
  destruct (simulate_schedule_total self (List.filter (is_other target_route) sched)
              (lab_day + 1)%Q 24
              (Some (<[target_route := 1.0]> (default ∅ current_factors))) None None
              ltac:(lia)) as (t_sim & c_other & -> & Hlt & Hlo).
  destruct (simulate_schedule_total self (List.filter (is_target target_route) sched)
              (lab_day + 1)%Q 24 (Some {[ target_route := 1.0 ]}) None None
              ltac:(lia)) as (t_sim' & c_target & -> & _ & Hlc).
  simpl. apply factor_at_trough_total.
  - intros ->. simpl in Hlt. lia.
  - congruence.
  - congruence.
Qed.





Local Close Scope R_scope.

(** ** The engine does not mutate the caller's objects *)

Module frame.
Import store rep.

Lemma bind_inv {A B} (m : M A) (k : A -> M B) h b h' :
  bind m k h = Some (b, h') ->
  exists a h1, m h = Some (a, h1) /\ k a h1 = Some (b, h').
Proof.
  unfold bind. destruct (m h) as [[a h1] |]; [| discriminate].
  intros Hk. exists a, h1. split; [reflexivity | exact Hk].
Qed.

Lemma preserves_ret {A} (a : A) : preserves (ret a).
Proof. intros h a' h' [= _ <-]. reflexivity. Qed.

Lemma preserves_raise {A} : preserves (@raise A).
Proof. intros h a h' Hr. discriminate Hr. Qed.

Lemma preserves_lift {A} (o : option A) : preserves (lift o).
Proof.
  intros h a h'. unfold lift. destruct o; [| discriminate].
  intros [= _ <-]. reflexivity.
Qed.

Lemma preserves_read l : preserves (read l).
Proof.
  intros h a h'. unfold read. destruct (h !! l); [| discriminate].
  intros [= _ <-]. reflexivity.
Qed.

Lemma fresh_unused (h : gmap loc obj) : h !! fresh (dom h) = None.
Proof. apply not_elem_of_dom, is_fresh. Qed.

Lemma preserves_alloc o : preserves (alloc o).
Proof.
  intros h l h'. unfold alloc. intros [= _ <-].
  apply insert_subseteq, fresh_unused.
Qed.

Lemma preserves_bind {A B} (m : M A) (k : A -> M B) :
  preserves m -> (forall a, preserves (k a)) -> preserves (bind m k).
Proof.
  intros Hm Hk h b h' Hrun.
  apply bind_inv in Hrun as (a & h1 & H1 & H2).
  transitivity h1; [eapply Hm, H1 | eapply Hk, H2].
Qed.

(** Writing to an object that was just allocated leaves the objects
    that existed before the allocation as they were. *)
Lemma preserves_alloc_write {B} o o' (k : loc -> M B) :
  (forall l, preserves (k l)) ->
  preserves (l <- alloc o; _ <- write l o'; k l).
Proof.
  intros Hk h b h' Hrun.
  apply bind_inv in Hrun as (l & h1 & H1 & Hrun).
  apply bind_inv in Hrun as ([] & h2 & H2 & Hrun).
  unfold alloc in H1. injection H1 as <- <-.
  unfold write in H2. rewrite lookup_insert_eq in H2. injection H2 as <-.
  rewrite insert_insert_eq in Hrun.
  transitivity (<[fresh (dom h) := o']> h); [| eapply Hk, Hrun].
  apply insert_subseteq, fresh_unused.
Qed.

Lemma preserves_read_dict l : preserves (engine.read_dict l).
Proof.
  apply preserves_bind; [apply preserves_read |].
  intros [m | e | ls]; [apply preserves_ret | apply preserves_raise ..].
Qed.

Lemma preserves_read_entry l : preserves (engine.read_entry l).
Proof.
  apply preserves_bind; [apply preserves_read |].
  intros [m | e | ls]; [| apply preserves_ret |]; apply preserves_raise.
Qed.

Lemma preserves_read_list l : preserves (engine.read_list l).
Proof.
  apply preserves_bind; [apply preserves_read |].
  intros [m | e | ls]; [| | apply preserves_ret]; apply preserves_raise.
Qed.

Lemma preserves_read_entries ls : preserves (engine.read_entries ls).
Proof.
  induction ls as [| l ls IH]; simpl; [apply preserves_ret |].
  apply preserves_bind; [apply preserves_read_entry |]. intros e.
  apply preserves_bind; [exact IH |]. intros es. apply preserves_ret.
Qed.

Lemma preserves_comprehension p ls : preserves (engine.comprehension p ls).
Proof.
  induction ls as [| l ls IH]; simpl; [apply preserves_ret |].
  apply preserves_bind; [apply preserves_read_entry |]. intros e.
  apply preserves_bind; [exact IH |]. intros es. apply preserves_ret.
Qed.

Lemma preserves_simulate_schedule self sl days resolution cl stop_day resume_day :
  preserves (engine.simulate_schedule self sl days resolution cl stop_day resume_day).
Proof.
  unfold engine.simulate_schedule.
  apply preserves_bind.
  { destruct cl; [apply preserves_ret | apply preserves_alloc]. }
  intros cl'. apply preserves_bind; [apply preserves_read_list |].
  intros ls. apply preserves_bind; [apply preserves_read_entries |].
  intros items. apply preserves_bind; [apply preserves_read_dict |].
  intros factors. apply preserves_lift.
Qed.

Lemma preserves_calculate_calibration_factor
    self sl lab_day lab_value target_route cl :
  preserves (engine.calculate_calibration_factor self sl lab_day lab_value
               target_route cl).
Proof.
  unfold engine.calculate_calibration_factor.
  destruct (Rle_dec lab_value 0); [apply preserves_ret |].
  apply preserves_bind.
  { destruct cl; [apply preserves_ret | apply preserves_alloc]. }
  intros cl'. apply preserves_bind; [apply preserves_read_dict |].
  intros m. apply preserves_alloc_write.
  intros calc_factors. apply preserves_bind; [apply preserves_read_list |].
  intros ls. apply preserves_bind; [apply preserves_comprehension |].
  intros other. apply preserves_bind; [apply preserves_alloc |].
  intros other_schedule. apply preserves_bind; [apply preserves_simulate_schedule |].
  intros [t_sim c_other]. apply preserves_bind; [apply preserves_comprehension |].
  intros target. apply preserves_bind; [apply preserves_alloc |].
  intros target_schedule. apply preserves_bind; [apply preserves_alloc |].
  intros unit_factors. apply preserves_bind; [apply preserves_simulate_schedule |].
  intros [t_sim' c_target]. apply preserves_lift.
Qed.

End frame.

(** ** The engine on the store computes what the functional model computes *)

Module refine.
Import store rep frame.

Lemma bind_run {A B} (m : M A) (k : A -> M B) h a h1 :
  m h = Some (a, h1) -> bind m k h = k a h1.
Proof. intros H. unfold bind. rewrite H. reflexivity. Qed.

Lemma entries_at_mono h h' ls items :
  h ⊆ h' -> entries_at h ls items -> entries_at h' ls items.
Proof.
  intros Hsub Hat. unfold entries_at. eapply Forall2_impl; [exact Hat |].
  intros l e Hl. exact (lookup_weaken _ _ _ _ Hl Hsub).
Qed.

Lemma read_entry_run h l e :
  h !! l = Some (OEntry e) -> engine.read_entry l h = Some (e, h).
Proof.
  intros H. unfold engine.read_entry, bind, read. rewrite H. reflexivity.
Qed.

Lemma read_list_run h l ls :
  h !! l = Some (OList ls) -> engine.read_list l h = Some (ls, h).
Proof.
  intros H. unfold engine.read_list, bind, read. rewrite H. reflexivity.
Qed.

Lemma read_dict_run h l m :
  h !! l = Some (ODict m) -> engine.read_dict l h = Some (m, h).
Proof.
  intros H. unfold engine.read_dict, bind, read. rewrite H. reflexivity.
Qed.

Lemma read_entries_run h ls items :
  entries_at h ls items -> engine.read_entries ls h = Some (items, h).
Proof.
  induction 1 as [| l e ls items Hl _ IH]; simpl; [reflexivity |].
  rewrite (bind_run _ _ _ _ _ (read_entry_run _ _ _ Hl)).
  rewrite (bind_run _ _ _ _ _ IH). reflexivity.
Qed.

Lemma comprehension_run p h ls items :
  entries_at h ls items ->
  exists ls', engine.comprehension p ls h = Some (ls', h) /\
              entries_at h ls' (List.filter p items).
Proof.
  induction 1 as [| l e ls items Hl _ (ls' & IH & Hat)]; simpl.
  - exists []. split; [reflexivity | constructor].
  - rewrite (bind_run _ _ _ _ _ (read_entry_run _ _ _ Hl)).
    rewrite (bind_run _ _ _ _ _ IH). unfold ret.
    destruct (p e); eexists; (split; [reflexivity |]).
    + constructor; assumption.
    + exact Hat.
Qed.

(** The factor dict the engine reads, after the [{}] default. *)
Lemma factors_run h cl cf :
  factors_at h cl cf ->
  exists l h0,
    match cl with None => alloc (ODict ∅) | Some l => ret l end h = Some (l, h0) /\
    h ⊆ h0 /\ h0 !! l = Some (ODict (default ∅ cf)).
Proof.
  unfold factors_at. destruct cl as [l |], cf as [m |]; try contradiction; intros H.
  - exists l, h. repeat split; [reflexivity | exact H].
  - exists (fresh (dom h)), (<[fresh (dom h) := ODict ∅]> h).
    repeat split.
    + apply insert_subseteq, fresh_unused.
    + apply lookup_insert_eq.
Qed.

Lemma simulate_schedule_run self h sl items cl cf days resolution stop_day resume_day :
  schedule_at h sl items -> factors_at h cl cf ->
  fst <$> engine.simulate_schedule self sl days resolution cl stop_day resume_day h =
  simulate_schedule self items days resolution cf stop_day resume_day.
Proof.
  intros (ls & Hsl & Hat) Hcf. unfold engine.simulate_schedule.
  destruct (factors_run h cl cf Hcf) as (l & h0 & Hrun & Hsub & Hl).
  rewrite (bind_run _ _ _ _ _ Hrun).
  rewrite (bind_run _ _ _ _ _ (read_list_run h0 sl ls (lookup_weaken _ _ _ _ Hsl Hsub))).
  rewrite (bind_run _ _ _ _ _ (read_entries_run h0 ls items (entries_at_mono _ _ _ _ Hsub Hat))).
  rewrite (bind_run _ _ _ _ _ (read_dict_run h0 l _ Hl)).
  unfold lift.
  replace (simulate_schedule self items days resolution (Some (default ∅ cf))
                             stop_day resume_day)
    with (simulate_schedule self items days resolution cf stop_day resume_day)
    by (destruct cf; reflexivity).
  destruct (simulate_schedule self items days resolution cf stop_day resume_day);
    reflexivity.
Qed.

Lemma simulate_schedule_step {B} (k : list Q * list R -> M B)
    self h sl items cl cf days resolution stop_day resume_day :
  schedule_at h sl items -> factors_at h cl cf ->
  match simulate_schedule self items days resolution cf stop_day resume_day with
  | None =>
      bind (engine.simulate_schedule self sl days resolution cl stop_day resume_day) k h
      = None
  | Some r =>
      exists h', h ⊆ h' /\
        bind (engine.simulate_schedule self sl days resolution cl stop_day resume_day) k h
        = k r h'
  end.
Proof.
  intros Hsl Hcf.
  pose proof (simulate_schedule_run self h sl items cl cf days resolution
                stop_day resume_day Hsl Hcf) as Hrun.
  pose proof (preserves_simulate_schedule self sl days resolution cl
                stop_day resume_day h) as Hpres.
  unfold bind.
  destruct (engine.simulate_schedule self sl days resolution cl stop_day resume_day h)
    as [[r' h'] |]; simpl in Hrun; rewrite <- Hrun.
  - exists h'. split; [eapply Hpres; reflexivity | reflexivity].
  - reflexivity.
Qed.

Lemma calculate_calibration_factor_run
    self h sl items cl cf lab_day lab_value target_route :
  schedule_at h sl items -> factors_at h cl cf ->
  fst <$> engine.calculate_calibration_factor self sl lab_day lab_value
            target_route cl h =
  calculate_calibration_factor self items lab_day lab_value target_route cf.
Proof.
  intros (ls & Hsl & Hat) Hcf.
  unfold engine.calculate_calibration_factor, calculate_calibration_factor.
  destruct (Rle_dec lab_value 0); [reflexivity |].
  destruct (factors_run h cl cf Hcf) as (l0 & h0 & Hrun0 & Hsub0 & Hl0).
  rewrite (bind_run _ _ _ _ _ Hrun0).
  rewrite (bind_run _ _ _ _ _ (read_dict_run h0 l0 _ Hl0)).
  set (m := default ∅ cf).
  (* calc_factors = current_factors.copy(); calc_factors[target_route] = 1.0 *)
  set (l1 := fresh (dom h0)).
  set (h1 := <[l1 := ODict (<[target_route := 1.0%R]> m)]> h0).
  assert (Hsub1 : h0 ⊆ h1) by apply insert_subseteq, fresh_unused.
  assert (Hcopy : forall B (k : loc -> M B),
             bind (alloc (ODict m)) k h0 = k l1 (<[l1 := ODict m]> h0))
    by reflexivity.
  rewrite Hcopy.
  assert (Hwrite : write l1 (ODict (<[target_route := 1.0%R]> m))
                     (<[l1 := ODict m]> h0) = Some (tt, h1)).
  { unfold write. rewrite lookup_insert_eq. unfold h1.
    rewrite insert_insert_eq. reflexivity. }
  rewrite (bind_run _ _ _ _ _ Hwrite).
  assert (Hsl1 : h1 !! sl = Some (OList ls)).
  { eapply lookup_weaken; [exact Hsl | etransitivity; eassumption]. }
  assert (Hat1 : entries_at h1 ls items).
  { eapply entries_at_mono; [| exact Hat]. etransitivity; eassumption. }
  rewrite (bind_run _ _ _ _ _ (read_list_run h1 sl ls Hsl1)).
  destruct (comprehension_run (is_other target_route) h1 ls items Hat1)
    as (other & Hother & Hat_other).
  rewrite (bind_run _ _ _ _ _ Hother).
  set (l2 := fresh (dom h1)). set (h2 := <[l2 := OList other]> h1).
  assert (Hsub2 : h1 ⊆ h2) by apply insert_subseteq, fresh_unused.
  assert (Halloc2 : alloc (OList other) h1 = Some (l2, h2)) by reflexivity.
  rewrite (bind_run _ _ _ _ _ Halloc2).
  assert (Hs2 : schedule_at h2 l2 (List.filter (is_other target_route) items)).
  { exists other. split; [apply lookup_insert_eq |].
    eapply entries_at_mono; eassumption. }
  assert (Hf2 : factors_at h2 (Some l1) (Some (<[target_route := 1.0%R]> m))).
  { simpl. eapply lookup_weaken; [apply lookup_insert_eq | exact Hsub2]. }
  match goal with |- context [bind (engine.simulate_schedule _ _ _ _ _ _ _) ?k h2] =>
    pose proof (simulate_schedule_step k self h2 l2 _ (Some l1) _ (lab_day + 1)%Q 24%Z
                  None None Hs2 Hf2) as Hstep
  end.
  destruct (simulate_schedule self (List.filter (is_other target_route) items) _ _ _ _ _)
    as [[t_sim c_other] |]; [| rewrite Hstep; reflexivity].
  destruct Hstep as (h3 & Hsub3 & ->). simpl.
  assert (Hat3 : entries_at h3 ls items).
  { eapply entries_at_mono; [| exact Hat1]. etransitivity; eassumption. }
  destruct (comprehension_run (is_target target_route) h3 ls items Hat3)
    as (target & Htarget & Hat_target).
  rewrite (bind_run _ _ _ _ _ Htarget).
  set (l4 := fresh (dom h3)). set (h4 := <[l4 := OList target]> h3).
  assert (Hsub4 : h3 ⊆ h4) by apply insert_subseteq, fresh_unused.
  assert (Halloc4 : alloc (OList target) h3 = Some (l4, h4)) by reflexivity.
  rewrite (bind_run _ _ _ _ _ Halloc4).
  set (l5 := fresh (dom h4)).
  set (h5 := <[l5 := ODict {[ target_route := 1.0%R ]}]> h4).
  assert (Hsub5 : h4 ⊆ h5) by apply insert_subseteq, fresh_unused.
  assert (Halloc5 : alloc (ODict {[ target_route := 1.0%R ]}) h4 = Some (l5, h5))
    by reflexivity.
  rewrite (bind_run _ _ _ _ _ Halloc5).
  assert (Hs5 : schedule_at h5 l4 (List.filter (is_target target_route) items)).
  { exists target. split.
    - eapply lookup_weaken; [apply lookup_insert_eq | exact Hsub5].
    - eapply entries_at_mono; [| exact Hat_target]. etransitivity; eassumption. }
  assert (Hf5 : factors_at h5 (Some l5) (Some {[ target_route := 1.0%R ]})).
  { simpl. apply lookup_insert_eq. }
  match goal with |- context [bind (engine.simulate_schedule _ _ _ _ _ _ _) ?k h5] =>
    pose proof (simulate_schedule_step k self h5 l4 _ (Some l5) _ (lab_day + 1)%Q 24%Z
                  None None Hs5 Hf5) as Hstep
  end.
  destruct (simulate_schedule self (List.filter (is_target target_route) items) _ _ _ _ _)
    as [[t_sim' c_target] |]; [| rewrite Hstep; reflexivity].
  destruct Hstep as (h6 & Hsub6 & ->). simpl. unfold lift.
  destruct (factor_at_trough lab_day lab_value t_sim c_other c_target); reflexivity.
Qed.

End refine.

Lemma run_of_result {A} (run : option (A * gmap store.loc store.obj)) (a : A) :
  fst <$> run = Some a -> exists h', run = Some (a, h').
Proof.
  destruct run as [[a' h'] |]; simpl; [| discriminate].
  intros [= ->]. exists h'. reflexivity.
Qed.

Lemma caller_store_schedule : rep.schedule_at caller_store 1%positive [ev_weekly].
Proof.
  exists [2%positive]. split; [reflexivity |].
  constructor; [reflexivity | constructor].
Qed.

Lemma caller_store_factors :
  rep.factors_at caller_store (Some 3%positive) (Some {[ "Injection" := 2.0%R ]}).
Proof. reflexivity. Qed.

(** The store model does see mutation: forcing the factor in place, in the
    caller's dict, is not a store-preserving computation. *)
Lemma in_place_update_is_visible :
  ~ rep.preserves (store.write 3%positive (store.ODict {[ "Injection" := 1.0%R ]})).
Proof.
  intros Hpres.
  specialize (Hpres caller_store tt _ eq_refl).
  assert (Hold : caller_store !! 3%positive
                 = Some (store.ODict {[ "Injection" := 2.0%R ]})) by reflexivity.
  pose proof (lookup_weaken _ _ _ _ Hold Hpres) as Hnew.
  rewrite lookup_insert_eq in Hnew.
  assert (Hm : ({[ "Injection" := 1.0%R ]} : gmap string R) !! "Injection"
               = ({[ "Injection" := 2.0%R ]} : gmap string R) !! "Injection")
    by congruence.
  rewrite !lookup_singleton_eq in Hm.
  assert (Hv : 1.0%R = 2.0%R) by congruence. lra.
Qed.

(** C8: neither the schedule simulator nor the calibration estimator
    mutates its inputs.  Run on a store in which the schedule list, its
    entries and the calibration-factor dict are objects, each returns what
    the functional model returns and leaves every object that existed
    before the call as it was; the estimator's [calc_factors[target_route]
    = 1.0] lands in the copy it allocated. *)
Theorem engine_leaves_inputs_unchanged
    (self : HormoneAnalyzer) (h : gmap store.loc store.obj)
    (sl : store.loc) (items : list ScheduleEntry)
    (cl : option store.loc) (cf : option (gmap string R)) :
  rep.schedule_at h sl items -> rep.factors_at h cl cf ->
  (forall days resolution stop_day resume_day r h',
     engine.simulate_schedule self sl days resolution cl stop_day resume_day h
       = Some (r, h') ->
     simulate_schedule self items days resolution cf stop_day resume_day = Some r /\
     rep.schedule_at h' sl items /\ rep.factors_at h' cl cf /\
     forall l o, h !! l = Some o -> h' !! l = Some o) /\
  (forall lab_day lab_value target_route v h',
     engine.calculate_calibration_factor self sl lab_day lab_value target_route cl h
       = Some (v, h') ->
     calculate_calibration_factor self items lab_day lab_value target_route cf = Some v /\
     rep.schedule_at h' sl items /\ rep.factors_at h' cl cf /\
     forall l o, h !! l = Some o -> h' !! l = Some o).
Proof.
  intros Hsl Hcf.
  assert (Hkeep : forall h', h ⊆ h' ->
            rep.schedule_at h' sl items /\ rep.factors_at h' cl cf /\
            forall l o, h !! l = Some o -> h' !! l = Some o).
  { intros h' Hsub. repeat split.
    - destruct Hsl as (ls & Hl & Hat). exists ls. split.
      + exact (lookup_weaken _ _ _ _ Hl Hsub).
      + eapply refine.entries_at_mono; eassumption.
    - unfold rep.factors_at in *. destruct cl, cf; try exact Hcf.
      exact (lookup_weaken _ _ _ _ Hcf Hsub).
    - intros l o Hl. exact (lookup_weaken _ _ _ _ Hl Hsub). }
  split.
  - intros days resolution stop_day resume_day r h' Hrun. split.
    + rewrite <- (refine.simulate_schedule_run self h sl items cl cf), Hrun by assumption.
      reflexivity.
    + apply Hkeep. eapply frame.preserves_simulate_schedule, Hrun.
  - intros lab_day lab_value target_route v h' Hrun. split.
    + rewrite <- (refine.calculate_calibration_factor_run self h sl items cl cf), Hrun
        by assumption.
      reflexivity.
    + apply Hkeep. eapply frame.preserves_calculate_calibration_factor, Hrun.
Qed.

Lemma engine_leaves_inputs_unchanged_witness :
  (exists r h',
     engine.simulate_schedule patient 1%positive 30 24 (Some 3%positive) None None
                              caller_store = Some (r, h') /\
     forall l o, caller_store !! l = Some o -> h' !! l = Some o) /\
  (exists v h',
     engine.calculate_calibration_factor patient 1%positive 14 200 "Injection"
                                         (Some 3%positive) caller_store = Some (v, h') /\
     h' !! 3%positive = Some (store.ODict {[ "Injection" := 2.0%R ]})).
Proof.
  pose proof (engine_leaves_inputs_unchanged patient caller_store 1%positive
                [ev_weekly] (Some 3%positive) (Some {[ "Injection" := 2.0%R ]})
                caller_store_schedule caller_store_factors) as [Hsim Hcal].
  split.
  - destruct (simulate_schedule_total patient [ev_weekly] 30 24
                (Some {[ "Injection" := 2.0%R ]}) None None) as (t & c & Hpure & _).
    { discriminate. }
    rewrite <- (refine.simulate_schedule_run patient caller_store 1%positive
                  [ev_weekly] (Some 3%positive) _ 30 24 None None
                  caller_store_schedule caller_store_factors) in Hpure.
    apply run_of_result in Hpure as [h' Hrun].
    exists (t, c), h'. split; [exact Hrun |].
    apply (Hsim _ _ _ _ _ _ Hrun).
  - destruct (calculate_calibration_factor_total patient [ev_weekly] 14 200%R
                "Injection" (Some {[ "Injection" := 2.0%R ]})) as (v & Hpure).
    { discriminate. }
    rewrite <- (refine.calculate_calibration_factor_run patient caller_store 1%positive
                  [ev_weekly] (Some 3%positive) _ 14 200%R "Injection"
                  caller_store_schedule caller_store_factors) in Hpure.
    apply run_of_result in Hpure as [h' Hrun].
    exists v, h'. split; [exact Hrun |].
    apply (Hcal _ _ _ _ _ Hrun). reflexivity.
Defined.

(** * Further properties of the engine *)

(** ** Physiology adjusters *)

(** Linear arithmetic on rationals written with decimal constants. *)
Ltac q_arith := unfold Qlt, Qle, Qeq in *; simpl in *; lia.

Lemma Qmax_lub_lt (x y z : Q) : (z < Qmax x y)%Q <-> (z < x \/ z < y)%Q.
Proof. apply Q.max_lt_iff. Qed.

Lemma liver_factor_range (self : HormoneAnalyzer) :
  (1 <= _get_liver_metabolism_factor self <= 1.2)%Q.
Proof.
  unfold _get_liver_metabolism_factor.
  destruct (py.Qltb 40.0 (ast self) || py.Qltb 40.0 (alt self)) eqn:E.
  - apply orb_true_iff in E. rewrite !Qltb_lt in E.
    apply Qmax_lub_lt in E.
    set (m := Qmax (ast self) (alt self)) in *. clearbody m.
    split.
    + apply Q.min_glb; [| discriminate].
      assert (H0 : (0 <= (m - 40.0) / 10.0 * 0.02)%Q).
      { apply Qmult_le_0_compat; [| discriminate].
        apply Qle_shift_div_l; [reflexivity |]. q_arith. }
      revert H0. generalize ((m - 40.0) / 10.0 * 0.02)%Q. intros q H0. q_arith.
    + apply Q.le_min_r.
  - split; discriminate.
Qed.

(** X1: whatever the patient attributes, the four physiology modifiers
    stay in their ranges: liver factor in [1, 1.2], body-fat adjustment in
    [0.8, 1.5], BMI adjustment in [0.9, 1.3], first-pass adjustment in
    [0.85, 1.15]; with AST and ALT both at most 40 the liver factor is
    exactly 1. *)
Theorem physiology_modifiers_in_range (self : HormoneAnalyzer) (route_type : string) :
  (1 <= _get_liver_metabolism_factor self <= 1.2)%Q /\
  (0.8 <= _get_body_fat_adjustment self <= 1.5)%Q /\
  (0.9 <= _get_bmi_adjustment self <= 1.3)%Q /\
  (0.85 <= _get_first_pass_adjustment self route_type <= 1.15)%Q /\
  ((ast self <= 40)%Q -> (alt self <= 40)%Q ->
   _get_liver_metabolism_factor self = 1.0%Q).
Proof.
  split; [apply liver_factor_range |].
  split; [apply clipQ_bounds; discriminate |].
  split; [apply clipQ_bounds; discriminate |].
  split.
  - unfold _get_first_pass_adjustment. destruct (bool_decide _).
    + apply clipQ_bounds. discriminate.
    + split; discriminate.
  - intros Ha Hb. unfold _get_liver_metabolism_factor.
    unfold py.Qltb.
    assert (E1 : Qle_bool (ast self) 40.0 = true) by (apply Qle_bool_iff; q_arith).
    assert (E2 : Qle_bool (alt self) 40.0 = true) by (apply Qle_bool_iff; q_arith).
    rewrite E1, E2. reflexivity.
Qed.

Lemma physiology_modifiers_in_range_witness :
  _get_liver_metabolism_factor patient = 1.0%Q.
Proof.
  apply (physiology_modifiers_in_range patient "Oral"); discriminate.
Defined.

(** ** Concentration model: sign, scaling and peak *)

Local Open Scope R_scope.

Lemma init_weight w a s l bf h : (30.0 <= weight (init w a s l bf h))%Q.
Proof. simpl. apply Q.le_max_r. Qed.

Lemma init_height w a s l bf h : (100.0 <= height (init w a s l bf h))%Q.
Proof. simpl. apply Q.le_max_r. Qed.

Lemma route_constants_pos :
  map_Forall (fun (_ : string) v => py.Qltb 0 v = true) data.ROUTE_CONSTANTS.
Proof. refine (bool_decide_eq_true_1 _ _). vm_compute. reflexivity. Qed.

Lemma vd_const_pos (route_type : string) :
  0 < Q2R (default 4.0%Q (data.ROUTE_CONSTANTS !! route_type)).
Proof.
  replace 0 with (Q2R 0) by lra. apply Qlt_Rlt.
  destruct (data.ROUTE_CONSTANTS !! route_type) as [v |] eqn:E; simpl.
  - apply Qltb_lt. exact (route_constants_pos _ _ E).
  - reflexivity.
Qed.

Lemma Q2R_between (lo hi x : Q) :
  (lo <= x <= hi)%Q -> Q2R lo <= Q2R x <= Q2R hi.
Proof. intros [H1 H2]. split; apply Qle_Rle; assumption. Qed.

(** The volume of distribution of a constructed analyzer is positive. *)
Lemma volume_pos w a s l bf h (route_type : string) :
  let self := init w a s l bf h in
  0 < Q2R (weight self)
      * Q2R (default 4.0%Q (data.ROUTE_CONSTANTS !! route_type))
      * Q2R (_get_body_fat_adjustment self) * Q2R (_get_bmi_adjustment self).
Proof.
  intros self.
  pose proof (Qle_Rle _ _ (init_weight w a s l bf h)) as Hw. fold self in Hw.
  pose proof (vd_const_pos route_type) as Hv.
  pose proof (Q2R_between _ _ _ (clipQ_bounds
                (1.0 + (body_fat self - 22.0) * 0.008) 0.8 1.5 ltac:(discriminate)))
    as Hf.
  pose proof (Q2R_between _ _ _ (clipQ_bounds
                (1.0 + (bmi self - 22.0) * 0.01) 0.9 1.3 ltac:(discriminate)))
    as Hb.
  change (np.clipQ (1.0 + (body_fat self - 22.0) * 0.008) 0.8 1.5)
    with (_get_body_fat_adjustment self) in Hf.
  change (np.clipQ (1.0 + (bmi self - 22.0) * 0.01) 0.9 1.3)
    with (_get_bmi_adjustment self) in Hb.
  revert Hw Hv Hf Hb.
  generalize (Q2R (weight self))
             (Q2R (default 4.0%Q (data.ROUTE_CONSTANTS !! route_type)))
             (Q2R (_get_body_fat_adjustment self)) (Q2R (_get_bmi_adjustment self)).
  intros x1 x2 x3 x4 Hw Hv Hf Hb. repeat apply Rmult_lt_0_compat; lra.
Qed.

Lemma modifiers_pos (self : HormoneAnalyzer) (route_type : string) :
  0 < Q2R (_get_first_pass_adjustment self route_type) /\
  0 < Q2R (_get_liver_metabolism_factor self).
Proof.
  split.
  - assert (H : (0.85 <= _get_first_pass_adjustment self route_type)%Q).
    { unfold _get_first_pass_adjustment. destruct (bool_decide _).
      - apply clipQ_bounds. discriminate.
      - discriminate. }
    apply Qle_Rle in H. lra.
  - pose proof (Qle_Rle _ _ (proj1 (liver_factor_range self))). lra.
Qed.

Lemma bateman_function_eq self t dose ka ke f ef route_type :
  ka <> ke ->
  bateman_function self t dose ka ke f ef route_type =
  Rmax (bateman_coefficient self dose ka ke f ef route_type
        * (exp (- ke * t) - exp (- ka * t))) 0.
Proof.
  intros Hne. unfold bateman_function, bateman_coefficient.
  destruct (Req_dec_T ka ke); [contradiction | reflexivity].
Qed.

Lemma bateman_coefficient_nonneg w a s l bf h dose ka ke f ef route_type :
  0 <= dose -> 0 <= f -> 0 <= ef -> 0 < ke < ka ->
  0 <= bateman_coefficient (init w a s l bf h) dose ka ke f ef route_type.
Proof.
  intros Hd Hf He [Hke Hka]. unfold bateman_coefficient.
  destruct (Req_dec_T ka ke); [lra |].
  pose proof (volume_pos w a s l bf h route_type) as Hv. cbv zeta in Hv.
  destruct (modifiers_pos (init w a s l bf h) route_type) as [Hfp Hlv].
  revert Hv Hfp Hlv.
  generalize (Q2R (weight (init w a s l bf h))
              * Q2R (default 4.0%Q (data.ROUTE_CONSTANTS !! route_type))
              * Q2R (_get_body_fat_adjustment (init w a s l bf h))
              * Q2R (_get_bmi_adjustment (init w a s l bf h)))
             (Q2R (_get_first_pass_adjustment (init w a s l bf h) route_type))
             (Q2R (_get_liver_metabolism_factor (init w a s l bf h))).
  intros V fp lv Hv Hfp Hlv.
  apply Rmult_le_pos.
  - repeat apply Rmult_le_pos; lra.
  - left. apply Rinv_0_lt_compat. apply Rmult_lt_0_compat; lra.
Qed.




Lemma bateman_function_scale
    (self : HormoneAnalyzer) (c t dose ka ke f ef : R) (route_type : string) :
  0 <= c ->
  bateman_function self t (c * dose) ka ke f ef route_type =
  c * bateman_function self t dose ka ke f ef route_type.
Proof.
  intros Hc. unfold bateman_function.
  destruct (Req_dec_T ka ke).
  - rewrite <- (Rmult_0_r c) at 1. rewrite <- RmaxRmult by exact Hc.
    f_equal; unfold Rdiv; ring.
  - rewrite <- (Rmult_0_r c) at 1. rewrite <- RmaxRmult by exact Hc.
    f_equal; unfold Rdiv; ring.
Qed.

(** X3: the concentration is proportional to the dose: multiplying the
    dose by [c >= 0] multiplies the concentration by [c], for every patient
    and every other parameter. *)
Theorem bateman_function_dose_proportional
    (self : HormoneAnalyzer) (c t dose ka ke f ef : R) (route_type : string) :
  0 <= c ->
  bateman_function self t (c * dose) ka ke f ef route_type =
  c * bateman_function self t dose ka ke f ef route_type.
Proof. apply bateman_function_scale. Qed.

Lemma bateman_function_dose_proportional_witness :
  bateman_function patient 24 (2 * 10) 2 1 1 0.76 "Injection" =
  2 * bateman_function patient 24 10 2 1 1 0.76 "Injection".
Proof.
  apply (bateman_function_dose_proportional patient 2 24 10 2 1 1 0.76 "Injection").
  lra.
Defined.

Local Close Scope R_scope.

Local Open Scope R_scope.

(** The curve [exp(-ke t) - exp(-ka t)] and its derivative. *)
Lemma decay_difference_derivative (ka ke c : R) :
  derivable_pt_lim (fun t => exp (- ke * t) - exp (- ka * t)) c
    (exp (- ke * c) * (- ke * 1) - exp (- ka * c) * (- ka * 1)).
Proof.
  change (fun t => exp (- ke * t) - exp (- ka * t))
    with (minus_fct (comp exp (mult_real_fct (- ke) id))
                    (comp exp (mult_real_fct (- ka) id))).
  apply derivable_pt_lim_minus.
  - apply derivable_pt_lim_comp.
    + apply derivable_pt_lim_scal, derivable_pt_lim_id.
    + apply derivable_pt_lim_exp.
  - apply derivable_pt_lim_comp.
    + apply derivable_pt_lim_scal, derivable_pt_lim_id.
    + apply derivable_pt_lim_exp.
Qed.

(** Sign of the derivative on either side of [peak_time ka ke]. *)
Lemma decay_difference_slope (ka ke c : R) :
  0 < ke < ka ->
  (c <= peak_time ka ke ->
   0 <= exp (- ke * c) * (- ke * 1) - exp (- ka * c) * (- ka * 1)) /\
  (peak_time ka ke <= c ->
   exp (- ke * c) * (- ke * 1) - exp (- ka * c) * (- ka * 1) <= 0).
Proof.
  intros [Hke Hka].
  assert (Hka0 : 0 < ka) by lra.
  assert (Hpk : peak_time ka ke * (ka - ke) = ln ka - ln ke).
  { unfold peak_time. field. lra. }
  assert (Ea : ka * exp (- ka * c) = exp (ln ka - ka * c)).
  { unfold Rminus. rewrite exp_plus, exp_ln by exact Hka0.
    f_equal. f_equal. ring. }
  assert (Ee : ke * exp (- ke * c) = exp (ln ke - ke * c)).
  { unfold Rminus. rewrite exp_plus, exp_ln by exact Hke.
    f_equal. f_equal. ring. }
  split; intros Hc.
  - assert (exp (ln ke - ke * c) <= exp (ln ka - ka * c)).
    { apply exp_le_compat. nra. }
    nra.
  - assert (exp (ln ka - ka * c) <= exp (ln ke - ke * c)).
    { apply exp_le_compat. nra. }
    nra.
Qed.

(** The curve is maximal at [peak_time ka ke]. *)
Lemma decay_difference_max (ka ke t : R) :
  0 < ke < ka ->
  exp (- ke * t) - exp (- ka * t) <=
  exp (- ke * peak_time ka ke) - exp (- ka * peak_time ka ke).
Proof.
  intros Hk. set (T := peak_time ka ke).
  set (phi := fun t => exp (- ke * t) - exp (- ka * t)).
  set (phi' := fun c => exp (- ke * c) * (- ke * 1) - exp (- ka * c) * (- ka * 1)).
  change (phi t <= phi T).
  destruct (Rtotal_order t T) as [Hlt | [-> | Hgt]].
  - destruct (MVT_cor2 phi phi' t T Hlt) as (c & Hc & Hin).
    { intros c _. apply decay_difference_derivative. }
    pose proof (proj1 (decay_difference_slope ka ke c Hk)) as Hs.
    fold T in Hs. fold (phi' c) in Hs.
    assert (0 <= phi' c) by (apply Hs; lra). nra.
  - apply Rle_refl.
  - destruct (MVT_cor2 phi phi' T t Hgt) as (c & Hc & Hin).
    { intros c _. apply decay_difference_derivative. }
    pose proof (proj2 (decay_difference_slope ka ke c Hk)) as Hs.
    fold T in Hs. fold (phi' c) in Hs.
    assert (phi' c <= 0) by (apply Hs; lra). nra.
Qed.

(** X4: for an analyzer built by the constructor, non-negative dose,
    bioavailability and ester factor and [ka > ke > 0], the single-dose
    concentration is maximal at [t = (ln ka - ln ke) / (ka - ke)], the
    time-to-peak the absorption solver aims at. *)
Theorem bateman_function_peak
    (w a s l bf h : Q) (route_type : string) (dose ka ke f ef t : R) :
  let self := init w a s l bf h in
  0 <= dose -> 0 <= f -> 0 <= ef -> 0 < ke < ka ->
  bateman_function self t dose ka ke f ef route_type <=
  bateman_function self (peak_time ka ke) dose ka ke f ef route_type.
Proof.
  intros self Hd Hf He Hk.
  rewrite !bateman_function_eq by lra.
  apply Rle_max_compat_r. apply Rmult_le_compat_l.
  - apply bateman_coefficient_nonneg; assumption.
  - apply decay_difference_max, Hk.
Qed.

Lemma bateman_function_peak_witness :
  bateman_function patient 100 10 2 1 1 0.76 "Injection" <=
  bateman_function patient (peak_time 2 1) 10 2 1 1 0.76 "Injection".
Proof.
  apply (bateman_function_peak 60 25 20 20 22 170 "Injection" 10 2 1 1 0.76 100);
    lra.
Defined.

Local Close Scope R_scope.

(** ** Absorption solver: the iteration stays above the root *)

Local Open Scope R_scope.

(** The logarithm lies below its tangents. *)
Lemma ln_tangent (x y : R) : 0 < x -> 0 < y -> ln y <= ln x + (y - x) * / x.
Proof.
  intros Hx Hy.
  assert (Hq : 0 < y * / x) by (apply Rmult_lt_0_compat; [| apply Rinv_0_lt_compat]; lra).
  pose proof (exp_ineq1_le (ln (y * / x))) as H.
  rewrite exp_ln in H by exact Hq.
  rewrite ln_mult, ln_Rinv in H by (try apply Rinv_0_lt_compat; lra).
  replace ((y - x) * / x) with (y * / x - 1) by (field; lra). lra.
Qed.

Lemma one_div (x : R) : 1.0 / x = / x.
Proof. unfold Rdiv. replace 1.0 with 1 by lra. ring. Qed.

(** One Newton step from a point with positive slope lands at or above
    any positive root of the target equation. *)
Lemma newton_step_above (t ke r ka : R) :
  0 < r -> t * (r - ke) = ln r - ln ke ->
  0 < ka -> 0 < t - 1.0 / ka ->
  r <= ka - (t * (ka - ke) - (ln ka - ln ke)) / (t - 1.0 / ka).
Proof.
  intros Hr Hroot Hka Hfp.
  set (fp := t - 1.0 / ka) in *.
  set (F := t * (ka - ke) - (ln ka - ln ke)).
  pose proof (ln_tangent ka r Hka Hr) as Htan.
  assert (Hfp_eq : fp * (ka - r) = t * (ka - r) - (ka - r) * / ka).
  { unfold fp. rewrite one_div. ring. }
  assert (HF : F <= fp * (ka - r)).
  { rewrite Hfp_eq. unfold F.
    replace ((ka - r) * / ka) with (- ((r - ka) * / ka)) by ring. lra. }
  assert (Hdiv : F / fp <= ka - r).
  { apply (Rmult_le_reg_r fp); [exact Hfp |].
    unfold Rdiv. rewrite Rmult_assoc, Rinv_l, Rmult_1_r by lra. lra. }
  lra.
Qed.

(** At a root above [ke] the slope of the target function is not
    negative. *)
Lemma root_slope_nonneg (t ke r : R) :
  0 < ke < r -> t * (r - ke) = ln r - ln ke -> / r <= t.
Proof.
  intros [Hke Hr] Hroot.
  pose proof (ln_tangent r ke ltac:(lra) Hke) as Htan.
  assert (H : (r - ke) * / r <= t * (r - ke)).
  { replace ((r - ke) * / r) with (- ((ke - r) * / r)) by ring. lra. }
  apply (Rmult_le_reg_r (r - ke)); [lra |]. lra.
Qed.

Lemma clamp_ge (ka : R) : ka <= (if Rle_dec ka 1e-5 then 1e-5 else ka).
Proof. destruct (Rle_dec ka 1e-5); lra. Qed.

Lemma clamp_pos (ka : R) : 0 < (if Rle_dec ka 1e-5 then 1e-5 else ka).
Proof. destruct (Rle_dec ka 1e-5); lra. Qed.

(** One pass of the loop body started with positive slope at the clamped
    point: whether it breaks or goes on, the value it continues with is at
    or above the root. *)
Lemma newton_loop_above_from (fuel : nat) (t ke r ka : R) :
  0 < ke < r -> t * (r - ke) = ln r - ln ke ->
  r <= ka ->
  r <= newton_loop fuel t ke ka.
Proof.
  intros Hk Hroot. revert ka.
  induction fuel as [| fuel IH]; intros ka Hka; simpl; [exact Hka |].
  pose proof (clamp_ge ka) as Hge. pose proof (clamp_pos ka) as Hpos.
  set (ka' := if Rle_dec ka 1e-5 then 1e-5 else ka) in *.
  destruct (Rlt_dec (Rabs (t - 1.0 / ka')) 1e-7) as [Hbrk | Hgo]; [lra |].
  assert (Hslope : 0 <= t - 1.0 / ka').
  { pose proof (root_slope_nonneg t ke r Hk Hroot) as Hs.
    assert (/ ka' <= / r) by (apply Rinv_le_contravar; lra).
    rewrite one_div. lra. }
  assert (Hfp : 0 < t - 1.0 / ka').
  { rewrite Rabs_pos_eq in Hgo by exact Hslope. lra. }
  pose proof (newton_step_above t ke r ka' ltac:(lra) Hroot Hpos Hfp) as Hstep.
  destruct (Rlt_dec _ 1e-5); [exact Hstep | apply IH, Hstep].
Qed.

Lemma newton_loop_above (fuel : nat) (t ke r ka : R) :
  0 < ke < r -> t * (r - ke) = ln r - ln ke ->
  1e-7 <= t - 1.0 / (if Rle_dec ka 1e-5 then 1e-5 else ka) ->
  r <= newton_loop (S fuel) t ke ka.
Proof.
  intros Hk Hroot Hfirst. simpl.
  pose proof (clamp_pos ka) as Hpos.
  set (ka' := if Rle_dec ka 1e-5 then 1e-5 else ka) in *.
  destruct (Rlt_dec (Rabs (t - 1.0 / ka')) 1e-7) as [Hbrk | _].
  { rewrite Rabs_pos_eq in Hbrk by lra. lra. }
  pose proof (newton_step_above t ke r ka' ltac:(lra) Hroot Hpos ltac:(lra)) as Hstep.
  destruct (Rlt_dec _ 1e-5); [exact Hstep |].
  apply newton_loop_above_from; assumption.
Qed.

(** The initial guess has a slope well away from zero. *)
Lemma initial_guess_slope (t ke : R) :
  1e-6 <= t -> 0 < ke ->
  let ka0 := 1.0 / (t / 2.5) in
  let ka1 := if Rle_dec ka0 ke then ke * 2.0 else ka0 in
  1e-7 <= t - 1.0 / (if Rle_dec ka1 1e-5 then 1e-5 else ka1).
Proof.
  intros Ht Hke ka0 ka1.
  assert (Hka0 : ka0 = 2.5 * / t).
  { unfold ka0. rewrite one_div. unfold Rdiv.
    rewrite Rinv_mult, Rinv_inv. ring. }
  assert (Hinv0 : 1.0 / ka0 = t * / 2.5).
  { rewrite one_div, Hka0, Rinv_mult, Rinv_inv. ring. }
  assert (Hti : t * / t = 1) by (apply Rinv_r; lra).
  assert (Hka0pos : 0 < ka0).
  { rewrite Hka0. apply Rmult_lt_0_compat; [lra | apply Rinv_0_lt_compat; lra]. }
  assert (Hka1 : ka0 <= ka1 /\ 0 < ka1).
  { unfold ka1. destruct (Rle_dec ka0 ke); lra. }
  destruct Hka1 as [Hka1 Hka1pos].
  assert (Hinv1 : 1.0 / ka1 <= t * / 2.5).
  { rewrite <- Hinv0, !one_div. apply Rinv_le_contravar; lra. }
  destruct (Rle_dec ka1 1e-5) as [Hsmall | _]; [| lra].
  assert (Hbig : 2.5 * / t <= 1e-5) by lra.
  assert (Ht5 : 2.5e5 <= t).
  { apply (Rmult_le_compat_r t) in Hbig; [| lra].
    rewrite Rmult_assoc, (Rmult_comm (/ t)), Hti in Hbig. lra. }
  assert (H5 : 1.0 / 1e-5 = 1e5).
  { rewrite one_div. apply (Rmult_eq_reg_l 1e-5); [| lra].
    rewrite Rinv_r by lra. lra. }
  lra.
Qed.

(** The target function is non-negative at or above a root above [ke]:
    there the peak time is at most [t]. *)
Lemma peak_time_above_root (t ke r ka : R) :
  0 < ke < r -> t * (r - ke) = ln r - ln ke -> r <= ka ->
  peak_time ka ke <= t.
Proof.
  intros [Hke Hr] Hroot Hka. unfold peak_time.
  pose proof (ln_tangent r ka ltac:(lra) ltac:(lra)) as Htan.
  pose proof (root_slope_nonneg t ke r (conj Hke Hr) Hroot) as Hs.
  assert (Hprod : (ka - r) * / r <= t * (ka - r)).
  { rewrite (Rmult_comm t). apply Rmult_le_compat_l; lra. }
  apply (Rmult_le_reg_r (ka - ke)); [lra |].
  unfold Rdiv. rewrite Rmult_assoc, Rinv_l, Rmult_1_r by lra.
  replace (t * (ka - ke)) with (t * (ka - r) + t * (r - ke)) by ring. lra.
Qed.

(** X5: when the time-to-peak equation has a solution [r > ke] (and
    [t_peak] is at least 1e-6 h), the solver never undershoots it: the
    returned [ka] is at least [r], so the peak of the resulting curve,
    [(ln ka - ln ke) / (ka - ke)], is never later than [t_peak]. *)
Theorem solver_stays_above_root (t_peak ke r : R) :
  1e-6 <= t_peak -> 0 < ke < r -> t_peak = peak_time r ke ->
  r <= _solve_ka_newton t_peak ke /\
  peak_time (_solve_ka_newton t_peak ke) ke <= t_peak.
Proof.
  intros Ht Hk Hpk.
  assert (Hroot : t_peak * (r - ke) = ln r - ln ke).
  { rewrite Hpk. unfold peak_time. field. lra. }
  assert (Hres : r <= _solve_ka_newton t_peak ke).
  { unfold _solve_ka_newton.
    destruct (Rle_dec t_peak 0) as [H0 | _]; [lra |].
    pose proof (initial_guess_slope t_peak ke Ht ltac:(lra)) as Hinit.
    cbv zeta in Hinit.
    pose proof (newton_loop_above 14 t_peak ke r _ Hk Hroot Hinit) as Hloop.
    clear Hinit. revert Hloop.
    match goal with |- context [newton_loop ?n ?a ?b ?c] =>
      generalize (newton_loop n a b c) end.
    intros ka Hloop. destruct (Rle_dec ka ke); lra. }
  split; [exact Hres |].
  eapply peak_time_above_root; eassumption.
Qed.

Lemma solver_stays_above_root_witness :
  2 <= _solve_ka_newton (peak_time 2 1) 1 /\
  peak_time (_solve_ka_newton (peak_time 2 1) 1) 1 <= peak_time 2 1.
Proof.
  apply (solver_stays_above_root (peak_time 2 1) 1 2).
  - unfold peak_time. rewrite ln_1. pose proof ln_lt_2.
    replace ((ln 2 - 0) / (2 - 1)) with (ln 2) by (field; lra). lra.
  - lra.
  - reflexivity.
Defined.

Local Close Scope R_scope.

(** ** Dose times stay inside the horizon *)

Lemma arange_In (stop step x : Q) :
  In x (np.arange stop step) <->
  exists i, (0 <= i < Qceiling (stop / step))%Z /\ x = (inject_Z i * step)%Q.
Proof.
  unfold np.arange. rewrite in_map_iff. split.
  - intros (i & <- & Hi). apply range_In in Hi. exists i. split; [exact Hi | reflexivity].
  - intros (i & Hi & ->). exists i. split; [reflexivity | apply range_In, Hi].
Qed.

Lemma arange_bounds (stop step x : Q) :
  (0 < step)%Q -> In x (np.arange stop step) -> (0 <= x < stop)%Q.
Proof.
  intros Hstep Hx. apply arange_In in Hx as (i & [Hi0 Hi] & ->). split.
  - apply Qmult_le_0_compat; [| apply Qlt_le_weak, Hstep].
    change 0%Q with (inject_Z 0). rewrite <- Zle_Qle. exact Hi0.
  - assert (Hlt : (inject_Z i < stop / step)%Q).
    { eapply Qle_lt_trans; [| apply Qceiling_lt]. rewrite <- Zle_Qle. lia. }
    apply (Qmult_lt_r _ _ step Hstep) in Hlt.
    eapply Qlt_le_trans; [exact Hlt |].
    apply Qle_lteq. right. field.
    intros H0. rewrite H0 in Hstep. discriminate.
Qed.

Lemma expand_cycle_In total_hours cyc off dur start dt :
  In dt (expand_cycle total_hours cyc off dur start) ->
  (cyc = false /\ dt = start) \/
  (cyc = true /\ (dt < total_hours)%Q /\
   exists d, (0 <= d)%Z /\ dt = (start + off * 24 + inject_Z d * 24)%Q).
Proof.
  unfold expand_cycle. destruct cyc.
  - rewrite filter_In, in_map_iff. intros [(d & <- & Hd) Hlt].
    right. split; [reflexivity |]. split; [apply Qltb_lt, Hlt |].
    apply range_In in Hd. exists d. split; [lia | reflexivity].
  - intros [<- | []]. left. split; reflexivity.
Qed.

Lemma expand_cycle_length total_hours cyc off dur start :
  (length (expand_cycle total_hours cyc off dur start)
   <= if cyc then Z.to_nat (py.int dur) else 1)%nat.
Proof.
  unfold expand_cycle. destruct cyc; [| reflexivity].
  etransitivity; [apply List.filter_length_le |].
  rewrite length_map, range_length. reflexivity.
Qed.

Lemma flat_map_length_le {A B} (g : A -> list B) (k : nat) (l : list A) :
  (forall x, (length (g x) <= k)%nat) -> (length (flat_map g l) <= length l * k)%nat.
Proof.
  intros Hg. induction l as [| x l IH]; simpl; [lia |].
  rewrite length_app. specialize (Hg x). lia.
Qed.

Lemma all_dose_times_lt (total_hours : Q) (item : ScheduleEntry) (dt : Q) :
  (0 < interval item)%Q ->
  In dt (all_dose_times total_hours item) -> (dt < total_hours)%Q.
Proof.
  intros Hint Hdt.
  assert (Hstep : (0 < interval item * 24)%Q).
  { apply Qmult_lt_0_compat; [exact Hint | reflexivity]. }
  unfold all_dose_times in Hdt.
  apply in_flat_map in Hdt as (start & Hstart & Hdt).
  apply expand_cycle_In in Hdt as [[_ ->] | (_ & Hlt & _)]; [| exact Hlt].
  apply (arange_bounds _ _ _ Hstep Hstart).
Qed.

Lemma all_dose_times_nonneg (total_hours : Q) (item : ScheduleEntry) (dt : Q) :
  (0 < interval item)%Q ->
  default false (is_cycling item) = false \/ (0 <= default 0.0 (offset item))%Q ->
  In dt (all_dose_times total_hours item) -> (0 <= dt)%Q.
Proof.
  intros Hint Hoff Hdt.
  assert (Hstep : (0 < interval item * 24)%Q).
  { apply Qmult_lt_0_compat; [exact Hint | reflexivity]. }
  unfold all_dose_times in Hdt.
  apply in_flat_map in Hdt as (start & Hstart & Hdt).
  pose proof (proj1 (arange_bounds _ _ _ Hstep Hstart)) as Hs0.
  apply expand_cycle_In in Hdt as [[_ ->] | (Hcyc & _ & d & Hd & ->)]; [exact Hs0 |].
  destruct Hoff as [Hoff | Hoff]; [congruence |].
  assert (H1 : (0 <= default 0.0 (offset item) * 24)%Q)
    by (apply Qmult_le_0_compat; [exact Hoff | discriminate]).
  assert (H2 : (0 <= inject_Z d * 24)%Q).
  { apply Qmult_le_0_compat; [| discriminate].
    change 0%Q with (inject_Z 0). rewrite <- Zle_Qle. exact Hd. }
  rewrite <- (Qplus_0_r 0). apply Qplus_le_compat; [| exact H2].
  rewrite <- (Qplus_0_r 0). apply Qplus_le_compat; assumption.
Qed.

(** X6: for an entry with a positive interval every generated dose time
    lies before the end of the horizon, and is non-negative when the entry
    is not cycling or its offset is non-negative.  The number of cycle
    starts of an entry that is not skipped (interval at least 0.01 days) is
    at most [ceil(total_hours / 0.24)], i.e. 100 per simulated day, and the
    entry has at most that many dose times, times [int(duration)] if it is
    cycling. *)
Theorem dose_times_bounded (total_hours : Q) (item : ScheduleEntry) :
  (0 < interval item)%Q ->
  (forall dt, In dt (all_dose_times total_hours item) -> (dt < total_hours)%Q) /\
  (default false (is_cycling item) = false \/ (0 <= default 0.0 (offset item))%Q ->
   forall dt, In dt (all_dose_times total_hours item) -> (0 <= dt)%Q) /\
  ((0.01 <= interval item)%Q -> (0 <= total_hours)%Q ->
   (length (np.arange total_hours (interval item * 24)%Q)
    <= Z.to_nat (Qceiling (total_hours / 0.24)%Q))%nat) /\
  (length (all_dose_times total_hours item)
   <= length (np.arange total_hours (interval item * 24))
      * (if default false (is_cycling item)
         then Z.to_nat (py.int (default 1.0%Q (duration item))) else 1))%nat.
Proof.
  intros Hint.
  assert (Hstep : (0 < interval item * 24)%Q).
  { apply Qmult_lt_0_compat; [exact Hint | reflexivity]. }
  repeat split.
  - intros dt. apply all_dose_times_lt, Hint.
  - intros Hoff dt. apply all_dose_times_nonneg; assumption.
  - intros Hmin Htot. unfold np.arange. rewrite length_map, range_length.
    apply Z2Nat.inj_le.
    + destruct (Z_lt_le_dec (Qceiling (total_hours / (interval item * 24))) 0)
        as [Hneg | Hok]; [| exact Hok].
      exfalso. pose proof (Qle_ceiling (total_hours / (interval item * 24))) as Hc.
      assert (Hq : (0 <= total_hours / (interval item * 24))%Q).
      { apply Qle_shift_div_l; [exact Hstep |]. rewrite Qmult_0_l. exact Htot. }
      assert (Hz : (inject_Z (Qceiling (total_hours / (interval item * 24))) < 0)%Q).
      { change 0%Q with (inject_Z 0). rewrite <- Zlt_Qlt. exact Hneg. }
      apply (Qlt_not_le _ _ Hz). eapply Qle_trans; eassumption.
    + destruct (Z_lt_le_dec (Qceiling (total_hours / 0.24)) 0) as [Hneg | Hok];
        [| exact Hok].
      exfalso. pose proof (Qle_ceiling (total_hours / 0.24)) as Hc.
      assert (Hq : (0 <= total_hours / 0.24)%Q).
      { apply Qle_shift_div_l; [reflexivity |]. rewrite Qmult_0_l. exact Htot. }
      assert (Hz : (inject_Z (Qceiling (total_hours / 0.24)) < 0)%Q).
      { change 0%Q with (inject_Z 0). rewrite <- Zlt_Qlt. exact Hneg. }
      apply (Qlt_not_le _ _ Hz). eapply Qle_trans; eassumption.
    + apply Qceiling_resp_le.
      apply Qle_shift_div_l; [reflexivity |].
      assert (Hq : (0 <= total_hours / (interval item * 24))%Q).
      { apply Qle_shift_div_l; [exact Hstep |]. rewrite Qmult_0_l. exact Htot. }
      apply Qle_trans
        with (total_hours / (interval item * 24) * (interval item * 24))%Q.
      * rewrite !(Qmult_comm (total_hours / (interval item * 24))).
        apply Qmult_le_compat_r; [| exact Hq].
        apply Qle_trans with (0.01 * 24)%Q; [discriminate |].
        apply Qmult_le_compat_r; [exact Hmin | discriminate].
      * apply Qle_lteq. right. field.
        intros H0. rewrite H0 in Hstep. discriminate.
  - unfold all_dose_times. apply flat_map_length_le.
    intros start. apply expand_cycle_length.
Qed.

Lemma dose_times_bounded_witness :
  (0 < interval ev_weekly)%Q /\
  Forall (fun dt => (dt < 30 * 24)%Q) (all_dose_times (30 * 24) ev_weekly).
Proof.
  split; [reflexivity |].
  apply Forall_forall. intros dt Hin.
  apply (proj1 (dose_times_bounded (30 * 24) ev_weekly eq_refl)).
  apply list_elem_of_In, Hin.
Defined.

(** ** The superposition loop, one grid point at a time *)

Lemma zip_with_shifted self dose ka ke f ef route_type cf dose_t ts acc :
  zip_with (fun s c =>
              if Qle_bool 0 s then
                (c + bateman_function self (Q2R s) dose ka ke f ef route_type * cf)%R
              else c)
           (map (fun t => (t - dose_t)%Q) ts) acc =
  zip_with (dose_update self dose ka ke f ef route_type cf dose_t) ts acc.
Proof.
  revert acc. induction ts as [| t ts IH]; intros [| c acc]; simpl; try reflexivity.
  rewrite IH. reflexivity.
Qed.

Lemma zip_with_no_valid self dose ka ke f ef route_type cf dose_t ts acc :
  length acc = length ts ->
  np.any (map (fun s => Qle_bool 0 s) (map (fun t => (t - dose_t)%Q) ts)) = false ->
  zip_with (dose_update self dose ka ke f ef route_type cf dose_t) ts acc = acc.
Proof.
  revert acc. induction ts as [| t ts IH]; intros [| c acc] Hlen Hany;
    simpl in *; try reflexivity; try discriminate.
  apply orb_false_iff in Hany as [Ht Hany].
  unfold dose_update at 1. rewrite Ht. f_equal. apply IH; [lia | exact Hany].
Qed.

(** [add_dose] updates every grid point by [dose_update]. *)
Lemma add_dose_zip self t_hours dose ka ke f ef route_type cf acc dose_t :
  length acc = length t_hours ->
  add_dose self t_hours dose ka ke f ef route_type cf acc dose_t =
  zip_with (dose_update self dose ka ke f ef route_type cf dose_t) t_hours acc.
Proof.
  intros Hlen. unfold add_dose.
  destruct (np.any _) eqn:Hany.
  - apply zip_with_shifted.
  - symmetry. apply zip_with_no_valid; assumption.
Qed.

Lemma zip_with_Forall2 {A B} (P : A -> B -> Prop) (g : A -> B -> B) ts a :
  Forall2 P ts a -> (forall t c, P t c -> P t (g t c)) ->
  Forall2 P ts (zip_with g ts a).
Proof.
  intros H Hg. induction H as [| t c ts a Hp _ IH]; simpl; constructor; auto.
Qed.

Lemma zip_with_Forall3_both {A B} (Rel : A -> B -> B -> Prop) (g : A -> B -> B) ts a b :
  Forall3 Rel ts a b -> (forall t x y, Rel t x y -> Rel t (g t x) (g t y)) ->
  Forall3 Rel ts (zip_with g ts a) (zip_with g ts b).
Proof.
  intros H Hg. induction H as [| t x y ts a b Hr _ IH]; simpl; constructor; auto.
Qed.

Lemma zip_with_Forall3_right {A B} (Rel : A -> B -> B -> Prop) (g : A -> B -> B) ts a b :
  Forall3 Rel ts a b -> (forall t x y, Rel t x y -> Rel t x (g t y)) ->
  Forall3 Rel ts a (zip_with g ts b).
Proof.
  intros H Hg. induction H as [| t x y ts a b Hr _ IH]; simpl; constructor; auto.
Qed.

Lemma apply_cessation_filter stop_day resume_day doses :
  apply_cessation stop_day resume_day doses =
  List.filter (kept stop_day resume_day) doses.
Proof.
  unfold apply_cessation, kept. destruct stop_day as [s |]; [destruct resume_day |];
    try reflexivity.
  symmetry. apply filter_all. reflexivity.
Qed.

Section PointwiseInvariants.

Variables (self : HormoneAnalyzer) (t_hours : list Q).
Variables (total_hours : Q) (factors : gmap string R).

(** A property of (time, concentration) pairs kept by every dose update
    of an entry is kept by the entry. *)
Lemma simulate_item_Forall2 (P : Q -> R -> Prop) stop_day resume_day acc item :
  (forall drug_info dt,
     data.DRUG_DB !! name item = Some drug_info ->
     py.Qltb (interval item) 0.01 = false ->
     In dt (retained_dose_times total_hours stop_day resume_day item) ->
     forall dose ka ke f ef t c,
       P t c ->
       P t (dose_update self dose ka ke f ef (data.type drug_info)
              (default 1.0%R (factors !! data.type drug_info)) dt t c)) ->
  Forall2 P t_hours acc ->
  Forall2 P t_hours
    (simulate_item self t_hours total_hours factors stop_day resume_day acc item).
Proof.
  intros Hupd Hacc. unfold simulate_item.
  destruct (py.Qltb (interval item) 0.01) eqn:Hint; [exact Hacc |].
  destruct (data.DRUG_DB !! name item) as [drug_info |] eqn:Hdb; [| exact Hacc].
  destruct (_get_ka_ke drug_info) as [ka ke].
  specialize (Hupd drug_info).
  revert acc Hacc Hupd.
  generalize (retained_dose_times total_hours stop_day resume_day item).
  intros doses. induction doses as [| dt doses IH]; intros acc Hacc Hupd; simpl;
    [exact Hacc |].
  apply IH.
  - rewrite add_dose_zip by (symmetry; eapply Forall2_length, Hacc).
    apply zip_with_Forall2; [exact Hacc |].
    intros t c. apply Hupd; [reflexivity .. | left; reflexivity].
  - intros dt' H1 H2 Hin. apply Hupd; [exact H1 | exact H2 | right; exact Hin].
Qed.

(** A relation between the accumulators of a run with cessation and a run
    without: kept by an entry when every dose update keeps it on both sides
    and every dropped dose keeps it when applied on the right only. *)
Lemma simulate_item_Forall3 (Rel : Q -> R -> R -> Prop) stop_day resume_day a b item :
  (forall route dose ka ke f ef dt t x y,
     Rel t x y ->
     Rel t (dose_update self dose ka ke f ef route
              (default 1.0%R (factors !! route)) dt t x)
           (dose_update self dose ka ke f ef route
              (default 1.0%R (factors !! route)) dt t y)) ->
  (forall route dose ka ke f ef dt t x y,
     kept stop_day resume_day dt = false ->
     Rel t x y ->
     Rel t x (dose_update self dose ka ke f ef route
                (default 1.0%R (factors !! route)) dt t y)) ->
  Forall3 Rel t_hours a b ->
  Forall3 Rel t_hours
    (simulate_item self t_hours total_hours factors stop_day resume_day a item)
    (simulate_item self t_hours total_hours factors None None b item).
Proof.
  intros Hsame Hdrop Hab. unfold simulate_item.
  destruct (py.Qltb (interval item) 0.01); [exact Hab |].
  destruct (data.DRUG_DB !! name item) as [drug_info |]; [| exact Hab].
  destruct (_get_ka_ke drug_info) as [ka ke].
  unfold retained_dose_times. rewrite !apply_cessation_filter.
  rewrite (filter_all (kept None None)) by reflexivity.
  revert a b Hab. generalize (all_dose_times total_hours item).
  intros doses. induction doses as [| dt doses IH]; intros a b Hab; simpl;
    [exact Hab |].
  assert (Hb : length b = length t_hours)
    by (symmetry; eapply Forall3_length_lr, Hab).
  assert (Ha : length a = length t_hours)
    by (symmetry; eapply Forall3_length_lm, Hab).
  destruct (kept stop_day resume_day dt) eqn:Hk; simpl.
  - apply IH. rewrite !add_dose_zip by assumption.
    apply zip_with_Forall3_both; [exact Hab |]. intros t x y. apply Hsame.
  - apply IH. rewrite add_dose_zip by assumption.
    apply zip_with_Forall3_right; [exact Hab |]. intros t x y.
    apply Hdrop, Hk.
Qed.

End PointwiseInvariants.

Lemma fold_left_Forall2 {A B C} (P : A -> B -> Prop) (step : list B -> C -> list B)
    (ts : list A) (l : list C) (acc : list B) :
  (forall x acc, In x l -> Forall2 P ts acc -> Forall2 P ts (step acc x)) ->
  Forall2 P ts acc -> Forall2 P ts (fold_left step l acc).
Proof.
  revert acc. induction l as [| x l IH]; intros acc Hstep Hacc; simpl; [exact Hacc |].
  apply IH.
  - intros y acc' Hy. apply Hstep. right; exact Hy.
  - apply Hstep; [left; reflexivity | exact Hacc].
Qed.

Lemma fold_left_Forall3 {A B C} (Rel : A -> B -> B -> Prop)
    (step1 step2 : list B -> C -> list B) (ts : list A) (l : list C) (a b : list B) :
  (forall x a b, Forall3 Rel ts a b -> Forall3 Rel ts (step1 a x) (step2 b x)) ->
  Forall3 Rel ts a b -> Forall3 Rel ts (fold_left step1 l a) (fold_left step2 l b).
Proof.
  revert a b. induction l as [| x l IH]; intros a b Hstep Hab; simpl; [exact Hab |].
  apply IH; [exact Hstep | apply Hstep, Hab].
Qed.

Lemma zeros_Forall2 (P : Q -> R -> Prop) (ts : list Q) :
  (forall t, P t 0%R) -> Forall2 P ts (np.zeros_like ts).
Proof.
  intros H. unfold np.zeros_like. induction ts; simpl; constructor; auto.
Qed.

Lemma zeros_Forall3 (Rel : Q -> R -> R -> Prop) (ts : list Q) :
  (forall t, Rel t 0%R 0%R) -> Forall3 Rel ts (np.zeros_like ts) (np.zeros_like ts).
Proof.
  intros H. unfold np.zeros_like. induction ts; simpl; constructor; auto.
Qed.

(** ** What the simulated curve always satisfies *)

Lemma bateman_function_nonneg self t dose ka ke f ef route_type :
  (0 <= bateman_function self t dose ka ke f ef route_type)%R.
Proof. unfold bateman_function. apply Rmax_r. Qed.

Lemma bateman_function_zero self dose ka ke f ef route_type :
  bateman_function self 0 dose ka ke f ef route_type = 0%R.
Proof.
  unfold bateman_function.
  rewrite !Rmult_0_r, exp_0, Rminus_diag, Rmult_0_r.
  apply Rmax_left, Rle_refl.
Qed.

Lemma factor_nonneg (factors : gmap string R) (route : string) :
  map_Forall (fun _ v => (0 <= v)%R) factors ->
  (0 <= default 1.0%R (factors !! route))%R.
Proof.
  intros H. destruct (factors !! route) as [v |] eqn:E; simpl.
  - exact (H _ _ E).
  - lra.
Qed.

Lemma dose_update_ge self dose ka ke f ef route_type cf dt t c :
  (0 <= cf)%R ->
  (c <= dose_update self dose ka ke f ef route_type cf dt t c)%R.
Proof.
  intros Hcf. unfold dose_update. destruct (Qle_bool 0 (t - dt)); [| lra].
  pose proof (bateman_function_nonneg self (Q2R (t - dt)) dose ka ke f ef route_type).
  assert (0 <= bateman_function self (Q2R (t - dt)) dose ka ke f ef route_type * cf)%R
    by (apply Rmult_le_pos; assumption).
  lra.
Qed.

Lemma Forall2_Forall_right {A B} (P : B -> Prop) (l : list A) (k : list B) :
  Forall2 (fun _ y => P y) l k -> Forall P k.
Proof. induction 1; constructor; auto. Qed.

(** X7: when no calibration factor is negative, no sample of the
    simulated concentration is negative, whatever the schedule, horizon,
    resolution and stop and resume days. *)
Theorem simulate_schedule_nonneg
    self sched days resolution cf stop_day resume_day t_days conc :
  map_Forall (fun _ v => (0 <= v)%R) (default ∅ cf) ->
  simulate_schedule self sched days resolution cf stop_day resume_day
    = Some (t_days, conc) ->
  Forall (fun x => (0 <= x)%R) conc.
Proof.
  intros Hcf. rewrite simulate_schedule_fold.
  destruct (np.linspace _ _) as [t_hours |]; simpl; [| discriminate].
  intros [= _ <-].
  apply (Forall2_Forall_right (fun x => (0 <= x)%R) t_hours).
  apply fold_left_Forall2; [| apply zeros_Forall2; intros; lra].
  intros item acc _ Hacc. apply simulate_item_Forall2; [| exact Hacc].
  intros drug_info dt _ _ _ dose ka ke f ef t c Hc.
  eapply Rle_trans; [exact Hc |]. apply dose_update_ge, factor_nonneg, Hcf.
Qed.

Lemma simulate_schedule_nonneg_witness :
  exists t_days conc,
    simulate_schedule patient [ev_weekly] 30 24 None (Some 10%Z) None
      = Some (t_days, conc) /\
    Forall (fun x => (0 <= x)%R) conc.
Proof.
  destruct (simulate_schedule_total patient [ev_weekly] 30 24 None (Some 10%Z) None)
    as (t_days & conc & Hsim & _); [discriminate |].
  exists t_days, conc. split; [exact Hsim |].
  apply (simulate_schedule_nonneg patient [ev_weekly] 30 24 None (Some 10%Z) None
           t_days conc (map_Forall_empty _) Hsim).
Defined.

Lemma dose_update_at_zero self dose ka ke f ef route_type cf dt t c :
  (0 <= dt)%Q -> (t == 0)%Q -> c = 0%R ->
  dose_update self dose ka ke f ef route_type cf dt t c = 0%R.
Proof.
  intros Hdt Ht ->. unfold dose_update.
  destruct (Qle_bool 0 (t - dt)) eqn:E; [| reflexivity].
  apply Qle_bool_iff in E.
  assert (Hz : (t - dt == 0)%Q).
  { apply Qle_antisym; [| exact E]. rewrite Ht.
    unfold Qminus. rewrite Qplus_0_l.
    apply (Qopp_le_compat 0 dt) in Hdt. exact Hdt. }
  rewrite (Qeq_eqR _ _ Hz), RMicromega.Q2R_0, bateman_function_zero. lra.
Qed.

(** X8: when every cycling entry has a non-negative offset, the
    concentration at every grid point at time 0 is exactly 0, whatever the
    doses and calibration factors; the first sample is at time 0. *)
Theorem simulate_schedule_zero_at_start
    self sched days resolution cf stop_day resume_day t_days conc :
  Forall (fun item => default false (is_cycling item) = false \/
                      (0 <= default 0.0 (offset item))%Q) sched ->
  simulate_schedule self sched days resolution cf stop_day resume_day
    = Some (t_days, conc) ->
  (forall (i : nat) t x,
     t_days !! i = Some t -> (t == 0)%Q -> conc !! i = Some x -> x = 0%R) /\
  (forall t x, t_days !! 0%nat = Some t -> conc !! 0%nat = Some x ->
     (t == 0)%Q /\ x = 0%R).
Proof.
  intros Hoff. rewrite simulate_schedule_fold.
  destruct (np.linspace _ _) as [t_hours |] eqn:Hlin; simpl; [| discriminate].
  intros [= <- <-].
  set (P := fun (t : Q) (c : R) => (t == 0)%Q -> c = 0%R).
  assert (HP : Forall2 P t_hours
                 (fold_left (simulate_item self t_hours (days * 24)%Q (default ∅ cf)
                               stop_day resume_day) sched (np.zeros_like t_hours))).
  { apply fold_left_Forall2; [| apply zeros_Forall2; intros t _; reflexivity].
    intros item acc Hitem Hacc. apply simulate_item_Forall2; [| exact Hacc].
    intros drug_info dt _ Hint Hdt dose ka ke f ef t c Hc Ht.
    apply dose_update_at_zero; [| exact Ht | apply Hc, Ht].
    rewrite Forall_forall in Hoff.
    specialize (Hoff item (proj2 (list_elem_of_In _ _) Hitem)).
    apply Qltb_ge in Hint.
    assert (Hpos : (0 < interval item)%Q)
      by (eapply Qlt_le_trans; [| exact Hint]; reflexivity).
    unfold retained_dose_times in Hdt. rewrite apply_cessation_filter in Hdt.
    apply filter_In in Hdt as [Hdt _].
    eapply all_dose_times_nonneg; eassumption. }
  assert (Hgen : forall (i : nat) t x,
             map (fun t => (t / 24)%Q) t_hours !! i = Some t -> (t == 0)%Q ->
             fold_left (simulate_item self t_hours (days * 24)%Q (default ∅ cf)
                          stop_day resume_day) sched (np.zeros_like t_hours) !! i
             = Some x -> x = 0%R).
  { intros i t x Ht Ht0 Hx. rewrite list_lookup_fmap in Ht.
    destruct (t_hours !! i) as [th |] eqn:Hth; [| discriminate].
    injection Ht as <-.
    apply (Forall2_lookup_lr _ _ _ _ _ _ HP Hth Hx).
    rewrite <- (Qmult_0_l 24), <- Ht0. field. }
  split; [exact Hgen |].
  intros t x Ht Hx.
  assert (Ht0 : (t == 0)%Q).
  { rewrite list_lookup_fmap in Ht.
    destruct (t_hours !! 0%nat) as [th |] eqn:Hth; [| discriminate].
    injection Ht as <-.
    unfold np.linspace in Hlin.
    destruct (_ <? 0)%Z; [discriminate |].
    destruct (_ =? 1)%Z.
    - injection Hlin as <-. injection Hth as <-. reflexivity.
    - injection Hlin as <-. rewrite list_lookup_fmap in Hth.
      destruct (py.range _ !! 0%nat) as [z |] eqn:Hz; [| discriminate].
      apply range_lookup in Hz as [-> _]. injection Hth as <-.
      simpl. unfold Qdiv. rewrite !Qmult_0_l. reflexivity. }
  split; [exact Ht0 | eapply Hgen; eassumption].
Qed.

Lemma simulate_schedule_zero_at_start_witness :
  exists t_days conc,
    simulate_schedule patient [ev_weekly; ev_cycling 5] 30 24 None None None
      = Some (t_days, conc) /\
    forall t x, t_days !! 0%nat = Some t -> conc !! 0%nat = Some x ->
      (t == 0)%Q /\ x = 0%R.
Proof.
  destruct (simulate_schedule_total patient [ev_weekly; ev_cycling 5] 30 24
              None None None) as (t_days & conc & Hsim & _); [discriminate |].
  exists t_days, conc. split; [exact Hsim |].
  apply (simulate_schedule_zero_at_start patient [ev_weekly; ev_cycling 5]
           30 24 None None None t_days conc); [| exact Hsim].
  constructor; [left; reflexivity |].
  constructor; [right; discriminate | constructor].
Defined.

(** ** Cessation *)

Lemma kept_false_after_stop (S : Z) resume_day (dt : Q) :
  kept (Some S) resume_day dt = false -> (inject_Z (S * 24) < dt)%Q.
Proof.
  unfold kept. destruct resume_day as [r |].
  - intros H. apply orb_false_iff in H as [H _]. apply Qle_bool_gt, H.
  - apply Qle_bool_gt.
Qed.

Lemma dose_update_before self dose ka ke f ef route_type cf dt t c :
  (t < dt)%Q -> dose_update self dose ka ke f ef route_type cf dt t c = c.
Proof.
  intros Hlt. unfold dose_update.
  destruct (Qle_bool 0 (t - dt)) eqn:E; [| reflexivity].
  exfalso. apply Qle_bool_iff in E. apply (Qlt_not_le _ _ Hlt).
  apply (Qplus_le_l _ _ (- dt)). rewrite Qplus_opp_r. exact E.
Qed.

(** Both runs, with and without cessation, related grid point by grid
    point. *)
Lemma simulate_schedule_cessation_related (Rel : Q -> R -> R -> Prop)
    self sched days resolution cf S resume_day t1 c1 t2 c2 :
  (forall t, Rel t 0%R 0%R) ->
  (forall route dose ka ke f ef dt t x y,
     Rel t x y ->
     Rel t (dose_update self dose ka ke f ef route
              (default 1.0%R (default ∅ cf !! route)) dt t x)
           (dose_update self dose ka ke f ef route
              (default 1.0%R (default ∅ cf !! route)) dt t y)) ->
  (forall route dose ka ke f ef dt t x y,
     (inject_Z (S * 24) < dt)%Q ->
     Rel t x y ->
     Rel t x (dose_update self dose ka ke f ef route
                (default 1.0%R (default ∅ cf !! route)) dt t y)) ->
  simulate_schedule self sched days resolution cf (Some S) resume_day = Some (t1, c1) ->
  simulate_schedule self sched days resolution cf None None = Some (t2, c2) ->
  t1 = t2 /\
  exists t_hours, t1 = map (fun t => (t / 24)%Q) t_hours /\ Forall3 Rel t_hours c1 c2.
Proof.
  intros Hzero Hsame Hdrop. rewrite !simulate_schedule_fold.
  destruct (np.linspace _ _) as [t_hours |]; simpl; [| discriminate].
  intros [= <- <-] [= <- <-]. split; [reflexivity |].
  exists t_hours. split; [reflexivity |].
  apply fold_left_Forall3; [| apply zeros_Forall3, Hzero].
  intros item a b Hab. apply simulate_item_Forall3; [exact Hsame | | exact Hab].
  intros route dose ka ke f ef dt t x y Hk. apply Hdrop.
  eapply kept_false_after_stop, Hk.
Qed.

(** X9: stopping (with or without a resume day) changes nothing up to
    the stop day: at every grid point at or before day [S] the
    concentration with cessation equals the concentration without; the time
    axis is the same. *)
Theorem cessation_leaves_past_unchanged
    self sched days resolution cf (S : Z) resume_day t1 c1 t2 c2 :
  simulate_schedule self sched days resolution cf (Some S) resume_day = Some (t1, c1) ->
  simulate_schedule self sched days resolution cf None None = Some (t2, c2) ->
  t1 = t2 /\
  forall (i : nat) t x y,
    t1 !! i = Some t -> c1 !! i = Some x -> c2 !! i = Some y ->
    (t <= inject_Z S)%Q -> x = y.
Proof.
  intros H1 H2.
  destruct (simulate_schedule_cessation_related
              (fun t x y => (t <= inject_Z (S * 24))%Q -> x = y)
              self sched days resolution cf S resume_day t1 c1 t2 c2)
    as (Ht & t_hours & -> & Hrel); try assumption.
  - reflexivity.
  - intros route dose ka ke f ef dt t x y Hxy Ht. rewrite (Hxy Ht). reflexivity.
  - intros route dose ka ke f ef dt t x y Hdt Hxy Ht.
    rewrite dose_update_before by (eapply Qle_lt_trans; eassumption).
    apply Hxy, Ht.
  - split; [exact Ht |]. intros i t x y Hi Hx Hy Hle.
    rewrite list_lookup_fmap in Hi.
    destruct (t_hours !! i) as [th |] eqn:Hth; [| discriminate].
    injection Hi as <-.
    apply (Forall3_lookup_lmr _ _ _ _ _ _ _ _ Hrel Hth Hx Hy).
    rewrite inject_Z_mult.
    apply Qle_trans with (th / 24 * 24)%Q; [apply Qle_lteq; right; field |].
    apply Qmult_le_compat_r; [exact Hle | discriminate].
Qed.

Lemma cessation_leaves_past_unchanged_witness :
  exists t1 c1 t2 c2,
    simulate_schedule patient [ev_weekly] 30 24 None (Some 10%Z) (Some 20%Z)
      = Some (t1, c1) /\
    simulate_schedule patient [ev_weekly] 30 24 None None None = Some (t2, c2) /\
    t1 = t2 /\
    forall (i : nat) t x y,
      t1 !! i = Some t -> c1 !! i = Some x -> c2 !! i = Some y ->
      (t <= inject_Z 10)%Q -> x = y.
Proof.
  destruct (simulate_schedule_total patient [ev_weekly] 30 24 None (Some 10%Z)
              (Some 20%Z)) as (t1 & c1 & H1 & _); [discriminate |].
  destruct (simulate_schedule_total patient [ev_weekly] 30 24 None None None)
    as (t2 & c2 & H2 & _); [discriminate |].
  exists t1, c1, t2, c2. split; [exact H1 |]. split; [exact H2 |].
  apply (cessation_leaves_past_unchanged patient [ev_weekly] 30 24 None 10
           (Some 20%Z) t1 c1 t2 c2 H1 H2).
Defined.

(** X10: when no calibration factor is negative, cessation never raises
    the curve: at every grid point the concentration with a stop day (with
    or without a resume day) is at most the concentration without. *)
Theorem cessation_never_raises
    self sched days resolution cf (S : Z) resume_day t1 c1 t2 c2 :
  map_Forall (fun _ v => (0 <= v)%R) (default ∅ cf) ->
  simulate_schedule self sched days resolution cf (Some S) resume_day = Some (t1, c1) ->
  simulate_schedule self sched days resolution cf None None = Some (t2, c2) ->
  length c1 = length c2 /\
  forall (i : nat) x y, c1 !! i = Some x -> c2 !! i = Some y -> (x <= y)%R.
Proof.
  intros Hcf H1 H2.
  destruct (simulate_schedule_cessation_related
              (fun _ x y => (x <= y)%R)
              self sched days resolution cf S resume_day t1 c1 t2 c2)
    as (Ht & t_hours & -> & Hrel); try assumption.
  - intros _. lra.
  - intros route dose ka ke f ef dt t x y Hxy. unfold dose_update.
    destruct (Qle_bool 0 (t - dt)); lra.
  - intros route dose ka ke f ef dt t x y _ Hxy.
    eapply Rle_trans; [exact Hxy |]. apply dose_update_ge, factor_nonneg, Hcf.
  - split.
    + rewrite <- (Forall3_length_lm _ _ _ _ Hrel). eapply Forall3_length_lr, Hrel.
    + intros i x y Hx Hy.
      destruct (lookup_lt_is_Some_2 t_hours i) as [th Hth].
      { rewrite (Forall3_length_lm _ _ _ _ Hrel). eapply lookup_lt_Some, Hx. }
      exact (Forall3_lookup_lmr _ _ _ _ _ _ _ _ Hrel Hth Hx Hy).
Qed.

Lemma cessation_never_raises_witness :
  exists t1 c1 t2 c2,
    simulate_schedule patient [ev_weekly] 30 24 None (Some 10%Z) None = Some (t1, c1) /\
    simulate_schedule patient [ev_weekly] 30 24 None None None = Some (t2, c2) /\
    length c1 = length c2 /\
    forall (i : nat) x y, c1 !! i = Some x -> c2 !! i = Some y -> (x <= y)%R.
Proof.
  destruct (simulate_schedule_total patient [ev_weekly] 30 24 None (Some 10%Z) None)
    as (t1 & c1 & H1 & _); [discriminate |].
  destruct (simulate_schedule_total patient [ev_weekly] 30 24 None None None)
    as (t2 & c2 & H2 & _); [discriminate |].
  exists t1, c1, t2, c2. split; [exact H1 |]. split; [exact H2 |].
  apply (cessation_never_raises patient [ev_weekly] 30 24 None 10 None t1 c1 t2 c2
           (map_Forall_empty _) H1 H2).
Defined.

(** ** Dose proportionality of the whole simulation *)

Lemma dose_update_scale self (c : R) dose ka ke f ef route_type cf dt t x :
  (0 <= c)%R ->
  dose_update self (c * dose) ka ke f ef route_type cf dt t (c * x) =
  (c * dose_update self dose ka ke f ef route_type cf dt t x)%R.
Proof.
  intros Hc. unfold dose_update. destruct (Qle_bool 0 (t - dt)); [| reflexivity].
  rewrite bateman_function_scale by exact Hc. ring.
Qed.

Lemma zip_with_scale (c : R) (g1 g2 : Q -> R -> R) ts a :
  (forall t x, g1 t (c * x)%R = (c * g2 t x)%R) ->
  zip_with g1 ts (map (Rmult c) a) = map (Rmult c) (zip_with g2 ts a).
Proof.
  intros Hg. revert a. induction ts as [| t ts IH]; intros [| x a]; simpl;
    try reflexivity.
  rewrite Hg, IH. reflexivity.
Qed.

Lemma fold_add_dose_scale self t_hours (c : R) dose ka ke f ef route_type cf doses a :
  (0 <= c)%R -> length a = length t_hours ->
  fold_left (add_dose self t_hours (c * dose) ka ke f ef route_type cf) doses
            (map (Rmult c) a) =
  map (Rmult c)
      (fold_left (add_dose self t_hours dose ka ke f ef route_type cf) doses a).
Proof.
  intros Hc. revert a. induction doses as [| dt doses IH]; intros a Hlen; simpl;
    [reflexivity |].
  rewrite <- IH by (apply add_dose_length, Hlen). f_equal.
  rewrite !add_dose_zip by (rewrite ?length_map; exact Hlen).
  apply zip_with_scale. intros t x. apply dose_update_scale, Hc.
Qed.

Lemma simulate_item_scale self t_hours total_hours factors stop_day resume_day
    (c : Q) a item :
  (0 <= c)%Q -> length a = length t_hours ->
  simulate_item self t_hours total_hours factors stop_day resume_day
                (map (Rmult (Q2R c)) a) (scale_dose c item) =
  map (Rmult (Q2R c))
      (simulate_item self t_hours total_hours factors stop_day resume_day a item).
Proof.
  intros Hc Hlen. unfold simulate_item. simpl.
  destruct (py.Qltb (interval item) 0.01); [reflexivity |].
  destruct (data.DRUG_DB !! name item) as [drug_info |]; [| reflexivity].
  destruct (_get_ka_ke drug_info) as [ka ke].
  rewrite Q2R_mult.
  change (retained_dose_times total_hours stop_day resume_day (scale_dose c item))
    with (retained_dose_times total_hours stop_day resume_day item).
  apply fold_add_dose_scale; [| exact Hlen].
  replace 0%R with (Q2R 0) by lra. apply Qle_Rle, Hc.
Qed.

(** X11: the simulation is proportional to the doses: multiplying the
    dose of every entry by [c >= 0] multiplies every sample of the
    concentration by [c] and leaves the time axis as it is. *)
Theorem simulate_schedule_dose_proportional
    self sched days resolution cf stop_day resume_day (c : Q) :
  (0 <= c)%Q ->
  simulate_schedule self (map (scale_dose c) sched) days resolution cf
                    stop_day resume_day =
  (fun r : list Q * list R => (fst r, map (Rmult (Q2R c)) (snd r))) <$>
    simulate_schedule self sched days resolution cf stop_day resume_day.
Proof.
  intros Hc. rewrite !simulate_schedule_fold.
  destruct (np.linspace _ _) as [t_hours |]; [| reflexivity]. simpl.
  f_equal. f_equal.
  assert (Hz : np.zeros_like t_hours = map (Rmult (Q2R c)) (np.zeros_like t_hours)).
  { unfold np.zeros_like. rewrite map_map. apply map_ext. intros _.
    rewrite Rmult_0_r. reflexivity. }
  rewrite Hz at 1.
  assert (Hlen : length (np.zeros_like t_hours) = length t_hours)
    by apply zeros_like_length.
  revert Hlen. generalize (np.zeros_like t_hours). clear Hz.
  induction sched as [| item sched IH]; intros a Hlen; simpl; [reflexivity |].
  rewrite simulate_item_scale by assumption.
  apply IH, simulate_item_length, Hlen.
Qed.

Lemma simulate_schedule_dose_proportional_witness :
  simulate_schedule patient (map (scale_dose 2) [ev_weekly]) 30 24 None None None =
  (fun r : list Q * list R => (fst r, map (Rmult (Q2R 2)) (snd r))) <$>
    simulate_schedule patient [ev_weekly] 30 24 None None None.
Proof.
  apply (simulate_schedule_dose_proportional patient [ev_weekly] 30 24 None None None 2).
  discriminate.
Defined.

(** ** Rate constants of the drugs in the store *)

Local Open Scope R_scope.

Lemma drug_db_positive :
  map_Forall (fun (_ : string) d =>
                py.Qltb 0 (data.half_life d) && py.Qltb 0 (data.t_peak d) = true)
             data.DRUG_DB.
Proof. refine (bool_decide_eq_true_1 _ _). vm_compute. reflexivity. Qed.

(** X12: for a drug with positive half-life and time-to-peak the rate
    constants the simulator uses satisfy [0 < ke < ka], with
    [ke = ln 2 / half-life]; every drug of the drug store is such a drug, so
    the concentration model never meets [ka = ke] or flip-flop kinetics on
    it. *)
Theorem rate_constants_ordered (drug_info : data.DrugInfo) :
  (0 < data.half_life drug_info)%Q -> (0 < data.t_peak drug_info)%Q ->
  0 < snd (_get_ka_ke drug_info) < fst (_get_ka_ke drug_info) /\
  snd (_get_ka_ke drug_info) * Q2R (data.half_life drug_info) = ln 2 /\
  forall drug_name d,
    data.DRUG_DB !! drug_name = Some d ->
    0 < snd (_get_ka_ke d) < fst (_get_ka_ke d).
Proof.
  assert (Hgen : forall d, (0 < data.half_life d)%Q -> (0 < data.t_peak d)%Q ->
                           0 < snd (_get_ka_ke d) < fst (_get_ka_ke d)).
  { intros d Hh Ht. unfold _get_ka_ke. simpl.
    apply Qlt_Rlt in Hh, Ht. rewrite RMicromega.Q2R_0 in Hh, Ht.
    split; [apply ke_pos, Hh | apply solve_ka_above_ke, Ht]. }
  intros Hh Ht. split; [apply Hgen; assumption |]. split.
  - unfold _get_ka_ke. simpl. apply Qlt_Rlt in Hh. rewrite RMicromega.Q2R_0 in Hh.
    field. lra.
  - intros drug_name d Hd. pose proof (drug_db_positive _ _ Hd) as Hpos.
    apply andb_true_iff in Hpos as [H1 H2]. apply Qltb_lt in H1, H2.
    apply Hgen; assumption.
Qed.

Lemma rate_constants_ordered_witness :
  0 < snd (_get_ka_ke (data.mk "Injection" 72.0 36.0 1.0 0.76))
    < fst (_get_ka_ke (data.mk "Injection" 72.0 36.0 1.0 0.76)).
Proof.
  apply (rate_constants_ordered (data.mk "Injection" 72.0 36.0 1.0 0.76));
    reflexivity.
Defined.

Local Close Scope R_scope.

(** ** Calibration estimator: dependence on its inputs *)

Local Open Scope R_scope.

Lemma clip_monotone (x y lo hi : R) : x <= y -> np.clip x lo hi <= np.clip y lo hi.
Proof.
  intros H. unfold np.clip. apply Rle_min_compat_r, Rle_max_compat_r, H.
Qed.


(** The trough index does not depend on the lab value: the result is one
    fixed function of the lab value. *)
Lemma factor_at_trough_shape lab_day v t_sim c_other c_target k :
  factor_at_trough lab_day v t_sim c_other c_target = Some k ->
  exists (idx : nat) co ct,
    c_other !! idx = Some co /\ c_target !! idx = Some ct /\
    forall v',
      factor_at_trough lab_day v' t_sim c_other c_target =
      Some (if Rlt_dec ct 0.1 then 1.0 else np.clip ((v' - co) / ct) 0.1 5.0).
Proof.
  unfold factor_at_trough.
  match goal with |- context [mbind _ ?m] => destruct m as [idx |] eqn:Eidx end;
    simpl; [| discriminate].
  destruct (c_other !! idx) as [co |] eqn:Eo; simpl; [| discriminate].
  destruct (c_target !! idx) as [ct |] eqn:Et; simpl; [| discriminate].
  intros _. exists idx, co, ct. repeat split; try assumption.
  intros v'. destruct (Rlt_dec ct 0.1); reflexivity.
Qed.

Lemma calculate_calibration_factor_shape
    self sched lab_day v target_route cf k :
  0 < v ->
  calculate_calibration_factor self sched lab_day v target_route cf = Some k ->
  exists co ct,
    forall v', 0 < v' ->
      calculate_calibration_factor self sched lab_day v' target_route cf =
      Some (if Rlt_dec ct 0.1 then 1.0 else np.clip ((v' - co) / ct) 0.1 5.0).
Proof.
  intros Hv. unfold calculate_calibration_factor.
  destruct (Rle_dec v 0); [lra |].
  destruct (simulate_schedule self (List.filter (is_other target_route) sched) _ _ _ _ _)
    as [[t_sim c_other] |]; simpl; [| discriminate].
  destruct (simulate_schedule self (List.filter (is_target target_route) sched) _ _ _ _ _)
    as [[t_sim' c_target] |]; simpl; [| discriminate].
  intros Hk. apply factor_at_trough_shape in Hk as (idx & co & ct & _ & _ & Hall).
  exists co, ct. intros v' Hv'. destruct (Rle_dec v' 0); [lra | apply Hall].
Qed.

(** X13: for positive lab values the estimated factor does not decrease
    when the lab value increases. *)
Theorem calibration_factor_monotone
    self sched lab_day target_route cf (v1 v2 k1 k2 : R) :
  0 < v1 <= v2 ->
  calculate_calibration_factor self sched lab_day v1 target_route cf = Some k1 ->
  calculate_calibration_factor self sched lab_day v2 target_route cf = Some k2 ->
  k1 <= k2.
Proof.
  intros [Hv1 Hv12] H1 H2.
  destruct (calculate_calibration_factor_shape _ _ _ _ _ _ _ Hv1 H1) as (co & ct & Hall).
  rewrite (Hall v1 Hv1) in H1. rewrite (Hall v2 ltac:(lra)) in H2.
  injection H1 as <-. injection H2 as <-.
  destruct (Rlt_dec ct 0.1) as [| Hct]; [lra |].
  apply clip_monotone. unfold Rdiv. apply Rmult_le_compat_r; [| lra].
  left. apply Rinv_0_lt_compat. lra.
Qed.

Lemma calibration_factor_monotone_witness :
  exists k1 k2,
    calculate_calibration_factor patient [ev_weekly] 14 100 "Injection" None = Some k1 /\
    calculate_calibration_factor patient [ev_weekly] 14 200 "Injection" None = Some k2 /\
    k1 <= k2.
Proof.
  destruct (calculate_calibration_factor_total patient [ev_weekly] 14 100 "Injection"
              None) as [k1 H1]; [discriminate |].
  destruct (calculate_calibration_factor_total patient [ev_weekly] 14 200 "Injection"
              None) as [k2 H2]; [discriminate |].
  exists k1, k2. split; [exact H1 |]. split; [exact H2 |].
  apply (calibration_factor_monotone patient [ev_weekly] 14 "Injection" None
           100 200 k1 k2); [lra | exact H1 | exact H2].
Defined.



(** X15: the estimate does not depend on the factor currently stored for
    the target route, and a missing mapping counts as an empty one: storing
    the new factor and estimating again gives the same result. *)
Theorem calibration_ignores_stored_target_factor
    self sched lab_day lab_value target_route (m : gmap string R) (k : R) :
  calculate_calibration_factor self sched lab_day lab_value target_route
                               (Some (<[target_route := k]> m)) =
  calculate_calibration_factor self sched lab_day lab_value target_route (Some m) /\
  calculate_calibration_factor self sched lab_day lab_value target_route None =
  calculate_calibration_factor self sched lab_day lab_value target_route (Some ∅).
Proof.
  split; [| reflexivity].
  unfold calculate_calibration_factor. simpl. rewrite insert_insert_eq. reflexivity.
Qed.




Local Close Scope R_scope.

(** ** Unit conversion *)

Local Open Scope R_scope.

(** X17: each pair of converters is a round trip: pg/mL to pmol/L and
    back with the converters of [analysis.py] (factor 3.671), and with those
    of [utils.py] (factor 3.6713), returns the value it started from;
    [convert_e2_unit] leaves the value alone for every unit other than
    "pmol/L". *)
Theorem unit_conversion_round_trip (x : R) :
  convert_pmol_to_pg (convert_pg_to_pmol x) = x /\
  convert_pg_to_pmol (convert_pmol_to_pg x) = x /\
  utils.convert_back_from_pmol (utils.convert_e2_unit x "pmol/L") = x /\
  forall target_unit : string,
    target_unit <> "pmol/L" -> utils.convert_e2_unit x target_unit = x.
Proof.
  unfold convert_pmol_to_pg, convert_pg_to_pmol, utils.convert_back_from_pmol,
    utils.convert_e2_unit.
  repeat split; try (simpl; lra).
  intros target_unit Hne.
  destruct (String.eqb target_unit "pmol/L") eqn:E.
  - apply String.eqb_eq in E. contradiction.
  - destruct (String.eqb target_unit "pg/mL"); reflexivity.
Qed.

Lemma unit_conversion_round_trip_witness :
  utils.convert_e2_unit 100 "ng/dL" = 100.
Proof.
  apply (unit_conversion_round_trip 100). discriminate.
Defined.

(** X18: the two families disagree: a value converted to pmol/L by
    [utils.convert_e2_unit] (3.6713) and back by [convert_pmol_to_pg]
    (3.671) comes back multiplied by 3.6713 / 3.671, which gives [x] only
    for [x = 0]. *)
Theorem unit_converters_disagree (x : R) :
  convert_pmol_to_pg (utils.convert_e2_unit x "pmol/L") = x * 3.6713 / 3.671 /\
  (convert_pmol_to_pg (utils.convert_e2_unit x "pmol/L") = x <-> x = 0).
Proof.
  unfold convert_pmol_to_pg, utils.convert_e2_unit. simpl.
  split; [reflexivity |]. split; intros H; lra.
Qed.

(** ** Summary statistics *)

Lemma fold_left_Rmax_ge (l : list R) (x : R) :
  x <= fold_left Rmax l x /\ Forall (fun y => y <= fold_left Rmax l x) l.
Proof.
  revert x. induction l as [| y l IH]; intros x; simpl.
  - split; [lra | constructor].
  - destruct (IH (Rmax x y)) as [H1 H2].
    pose proof (Rmax_l x y). pose proof (Rmax_r x y).
    split; [lra |]. constructor; [lra | exact H2].
Qed.


Lemma py_max_upper (l : list R) (m : R) :
  utils.py_max l = Some m -> Forall (fun y => y <= m) l.
Proof.
  destruct l as [| x l]; simpl; [discriminate |]. intros [= <-].
  destruct (fold_left_Rmax_ge l x) as [H1 H2]. constructor; assumption.
Qed.





Lemma diff_length {A} (sub : A -> A -> A) (l : list A) :
  length (utils.diff sub l) = (length l - 1)%nat.
Proof.
  induction l as [| x [| y l] IH]; [reflexivity | reflexivity |].
  change (utils.diff sub (x :: y :: l)) with (sub y x :: utils.diff sub (y :: l)).
  simpl length in *. rewrite IH. lia.
Qed.

Lemma py_max_positive (l : list R) :
  Exists (fun x => 0 < x) l -> exists peak, utils.py_max l = Some peak /\ 0 < peak.
Proof.
  intros Hex. destruct (utils.py_max l) as [peak |] eqn:Hmax.
  - exists peak. split; [reflexivity |].
    pose proof (py_max_upper _ _ Hmax) as Hupper.
    apply Exists_exists in Hex as (x & Hin & Hx).
    rewrite Forall_forall in Hupper. specialize (Hupper x Hin). simpl in Hupper. lra.
  - destruct l; [inversion Hex | discriminate].
Qed.

Lemma calculate_stats_defined (concentration_array : list R) (t_days : option (list Q)) :
  (forall ts, t_days = Some ts -> length ts = length concentration_array) ->
  exists s, utils.calculate_stats concentration_array t_days = Some s.
Proof.
  intros Hlen. unfold utils.calculate_stats.
  destruct (utils.py_max concentration_array) as [peak |]; [| eauto].
  destruct (Rle_dec peak 0); [eauto |].
  assert (Hslope : exists slope,
    match t_days with
    | Some ts =>
        if (1 <? length ts)%nat then
          ratio ← utils.broadcast2 (fun y x => y / Q2R x)
                    (utils.diff Rminus concentration_array) (utils.diff Qminus ts);
          utils.py_max (map Rabs ratio)
        else Some 0
    | None => Some 0
    end = Some slope).
  { destruct t_days as [ts |]; [| eauto].
    specialize (Hlen ts eq_refl).
    destruct (1 <? length ts)%nat eqn:H1; [| eauto].
    apply Nat.ltb_lt in H1.
    pose proof (diff_length Rminus concentration_array) as Hdy.
    pose proof (diff_length Qminus ts) as Hdt.
    unfold utils.broadcast2.
    replace (length (utils.diff Rminus concentration_array)
             =? length (utils.diff Qminus ts))%nat with true
      by (symmetry; apply Nat.eqb_eq; lia).
    simpl.
    destruct (utils.diff Rminus concentration_array) as [| a dy];
      [simpl in Hdy; lia |].
    destruct (utils.diff Qminus ts) as [| b dt]; [simpl in Hdt; lia |].
    simpl. eauto. }
  destruct Hslope as [slope ->]. simpl. eauto.
Qed.

(** X20: with no time axis, or with one as long as the array,
    [calculate_stats] returns; with a positive value in the array and a time
    axis of another length, both at least 3 long, the slope computation
    raises (shapes that do not broadcast). *)
Theorem calculate_stats_time_axis (concentration_array : list R) :
  (exists s, utils.calculate_stats concentration_array None = Some s) /\
  (forall ts, length ts = length concentration_array ->
     exists s, utils.calculate_stats concentration_array (Some ts) = Some s) /\
  (forall ts,
     Exists (fun x => 0 < x) concentration_array ->
     (3 <= length concentration_array)%nat -> (3 <= length ts)%nat ->
     length ts <> length concentration_array ->
     utils.calculate_stats concentration_array (Some ts) = None).
Proof.
  split; [| split].
  - apply calculate_stats_defined. discriminate.
  - intros ts Hlen. apply calculate_stats_defined. intros ts' [= <-]. exact Hlen.
  - intros ts Hex Hn Hm Hne. unfold utils.calculate_stats.
    destruct (py_max_positive _ Hex) as (peak & -> & Hpeak).
    destruct (Rle_dec peak 0); [lra |].
    replace (1 <? length ts)%nat with true by (symmetry; apply Nat.ltb_lt; lia).
    pose proof (diff_length Rminus concentration_array) as Hdy.
    pose proof (diff_length Qminus ts) as Hdt.
    unfold utils.broadcast2.
    replace (length (utils.diff Rminus concentration_array)
             =? length (utils.diff Qminus ts))%nat with false
      by (symmetry; apply Nat.eqb_neq; lia).
    destruct (utils.diff Rminus concentration_array) as [| a [| a' dy]];
      [simpl in Hdy; lia | simpl in Hdy; lia |].
    destruct (utils.diff Qminus ts) as [| b [| b' dt]];
      [simpl in Hdt; lia | simpl in Hdt; lia |].
    reflexivity.
Qed.

Lemma calculate_stats_time_axis_witness :
  (exists s, utils.calculate_stats [0; 2; 1] (Some [0; 1; 2]%Q) = Some s) /\
  utils.calculate_stats [0; 2; 1] (Some [0; 1; 2; 3]%Q) = None.
Proof.
  destruct (calculate_stats_time_axis [0; 2; 1]) as (_ & Hsame & Hother). split.
  - apply Hsame. reflexivity.
  - apply Hother; simpl; try lia.
    apply Exists_cons_tl, Exists_cons_hd. lra.
Defined.


(** ** Root-mean-square error against lab points *)

Lemma fold_left_Rplus_nonneg (l : list R) (acc : R) :
  Forall (fun y => 0 <= y) l ->
  acc <= fold_left Rplus l acc /\
  (fold_left Rplus l acc = acc <-> Forall (fun y => y = 0) l).
Proof.
  intros Hl. revert acc. induction Hl as [| y l Hy Hl IH]; intros acc.
  - simpl. split; [lra |]. split; [constructor | reflexivity].
  - change (fold_left Rplus (y :: l) acc) with (fold_left Rplus l (acc + y)).
    destruct (IH (acc + y)) as [H1 H2]. split; [lra |]. split.
    + intros Heq. assert (y = 0) as -> by lra.
      constructor; [reflexivity |]. apply H2. lra.
    + intros Hall. apply Forall_cons in Hall as [-> Hall].
      apply H2 in Hall. lra.
Qed.

Lemma nearest_prediction_defined (t_days : list Q) (y_conc : list R) (day : Q) :
  t_days <> [] -> (length t_days <= length y_conc)%nat ->
  exists p, utils.nearest_prediction t_days y_conc day = Some p.
Proof.
  intros Hne Hlen. unfold utils.nearest_prediction.
  destruct (argmin_total py.Qltb (map (fun t => Qabs (t - day)) t_days))
    as (i & -> & Hi).
  { destruct t_days; [congruence | discriminate]. }
  rewrite length_map in Hi. simpl.
  destruct (lookup_lt_is_Some_2 y_conc i ltac:(lia)) as [p Hp]. eauto.
Qed.

Lemma squared_errors_shape (t_days : list Q) (y_conc : list R)
    (lab_points : list (Q * R)) (sq_errors : list R) :
  mapM (fun point : Q * R =>
          prediction ← utils.nearest_prediction t_days y_conc (fst point);
          Some ((prediction - snd point) * (prediction - snd point)))
       lab_points = Some sq_errors ->
  length sq_errors = length lab_points /\
  Forall (fun y => 0 <= y) sq_errors /\
  (Forall (fun y => y = 0) sq_errors <->
   Forall (fun point =>
             utils.nearest_prediction t_days y_conc (fst point) = Some (snd point))
          lab_points).
Proof.
  intros Hmap. apply mapM_Some in Hmap.
  induction Hmap as [| point y pts sq Hy _ IH].
  - split; [reflexivity |]. split; [constructor |]. split; constructor.
  - destruct IH as (Hlen & Hpos & Hiff).
    destruct (utils.nearest_prediction t_days y_conc (fst point)) as [p |] eqn:Hp;
      simpl in Hy; [| discriminate].
    injection Hy as <-.
    split; [simpl; congruence |]. split.
    + constructor; [| exact Hpos]. simpl.
      generalize (p - snd point). intros d. nra.
    + split; intros Hall; apply Forall_cons in Hall as [H0 Hall];
        (constructor; [| apply Hiff, Hall]); simpl in *.
      * rewrite Hp. f_equal. apply Rmult_integral in H0. lra.
      * rewrite Hp in H0. injection H0 as ->. lra.
Qed.

Lemma calculate_rmse_defined (t_days : list Q) (y_conc : list R)
    (lab_points : list (Q * R)) :
  lab_points <> [] -> t_days <> [] -> (length t_days <= length y_conc)%nat ->
  exists rmse, utils.calculate_rmse t_days y_conc lab_points = Some (Some rmse).
Proof.
  intros Hpts Hne Hlen. unfold utils.calculate_rmse.
  destruct lab_points as [| p0 rest]; [congruence |].
  set (lab_points := p0 :: rest).
  assert (Hmap : exists sq_errors,
    mapM (fun point : Q * R =>
            prediction ← utils.nearest_prediction t_days y_conc (fst point);
            Some ((prediction - snd point) * (prediction - snd point)))
         lab_points = Some sq_errors /\ length sq_errors = length lab_points).
  { generalize lab_points. intros pts. induction pts as [| point pts IH].
    - exists []. split; reflexivity.
    - destruct IH as (sq & Hsq & Hlen').
      destruct (nearest_prediction_defined t_days y_conc (fst point) Hne Hlen)
        as [p Hp].
      exists ((p - snd point) * (p - snd point) :: sq).
      split; [| simpl; congruence].
      rewrite mapM_Some. constructor; [rewrite Hp; reflexivity |].
      apply mapM_Some, Hsq. }
  destruct Hmap as (sq_errors & -> & Hlen'). simpl.
  destruct sq_errors as [| e sq]; [discriminate |]. eauto.
Qed.

(** X21: a root-mean-square error that [calculate_rmse] returns is not
    negative, and it is 0 exactly when the curve, read at the grid point
    nearest to each lab day, equals every measured value; [None] is returned
    for an empty list of lab points only. *)
Theorem calculate_rmse_zero_iff_exact (t_days : list Q) (y_conc : list R)
    (lab_points : list (Q * R)) :
  (forall rmse,
     utils.calculate_rmse t_days y_conc lab_points = Some (Some rmse) ->
     0 <= rmse /\
     (rmse = 0 <->
      Forall (fun point =>
                utils.nearest_prediction t_days y_conc (fst point) = Some (snd point))
             lab_points)) /\
  (utils.calculate_rmse t_days y_conc lab_points = Some None <-> lab_points = []).
Proof.
  unfold utils.calculate_rmse.
  destruct lab_points as [| p0 rest].
  { split; [discriminate |]. split; reflexivity. }
  set (lab_points := p0 :: rest).
  destruct (mapM _ lab_points) as [sq_errors |] eqn:Hmap; simpl.
  2:{ split; [discriminate |]. split; discriminate. }
  destruct (squared_errors_shape _ _ _ _ Hmap) as (Hlen & Hpos & Hiff).
  destruct sq_errors as [| e sq]; [discriminate |].
  set (sq_errors := e :: sq) in *.
  split; [| split; discriminate].
  intros rmse [= <-].
  assert (Hn : 0 < INR (length sq_errors)) by (apply lt_0_INR; simpl; lia).
  destruct (fold_left_Rplus_nonneg sq_errors 0 Hpos) as [Hsum Hzero].
  fold (utils.py_sum sq_errors) in Hsum, Hzero.
  assert (Hmean : 0 <= utils.py_sum sq_errors / INR (length sq_errors)).
  { apply Rmult_le_pos; [exact Hsum |]. left. apply Rinv_0_lt_compat, Hn. }
  split; [apply sqrt_pos |].
  rewrite <- Hiff, <- Hzero. split.
  - intros H0. apply sqrt_eq_0 in H0; [| exact Hmean].
    apply (Rmult_eq_compat_r (INR (length sq_errors))) in H0.
    unfold Rdiv in H0. rewrite Rmult_assoc, Rinv_l, Rmult_1_r, Rmult_0_l in H0 by lra.
    exact H0.
  - intros ->. unfold Rdiv. rewrite Rmult_0_l. apply sqrt_0.
Qed.

Lemma calculate_rmse_zero_iff_exact_witness :
  exists rmse,
    utils.calculate_rmse [0; 1]%Q [5; 7] [(1%Q, 7)] = Some (Some rmse) /\
    0 <= rmse.
Proof.
  destruct (calculate_rmse_defined [0; 1]%Q [5; 7] [(1%Q, 7)])
    as [rmse H]; [discriminate | discriminate | simpl; lia |].
  exists rmse. split; [exact H |].
  apply (proj1 (calculate_rmse_zero_iff_exact [0; 1]%Q [5; 7] [(1%Q, 7)]) rmse H).
Defined.

(** X22: [calculate_rmse] returns a number whenever there are lab points,
    the grid is not empty and the curve is at least as long as the grid; with
    lab points and an empty grid it raises. *)
Theorem calculate_rmse_returns (t_days : list Q) (y_conc : list R)
    (lab_points : list (Q * R)) :
  lab_points <> [] ->
  (t_days <> [] -> (length t_days <= length y_conc)%nat ->
   exists rmse, utils.calculate_rmse t_days y_conc lab_points = Some (Some rmse)) /\
  (t_days = [] -> utils.calculate_rmse t_days y_conc lab_points = None).
Proof.
  intros Hpts. split.
  - apply calculate_rmse_defined, Hpts.
  - intros ->. destruct lab_points; [congruence | reflexivity].
Qed.

Lemma calculate_rmse_returns_witness :
  (exists rmse, utils.calculate_rmse [0; 1]%Q [5; 7] [(1%Q, 6)] = Some (Some rmse)) /\
  utils.calculate_rmse [] [5; 7] [(1%Q, 6)] = None.
Proof.
  destruct (calculate_rmse_returns [0; 1]%Q [5; 7] [(1%Q, 6)] ltac:(discriminate))
    as [Hsome _].
  destruct (calculate_rmse_returns [] [5; 7] [(1%Q, 6)] ltac:(discriminate))
    as [_ Hnone].
  split.
  - apply Hsome; [discriminate | simpl; lia].
  - apply Hnone. reflexivity.
Defined.

(** ** Risk flags and grades *)

(** X23: the steep-slope flag depends on the size of the slope only, not
    on its direction; a flagged slope stays flagged when it gets steeper at
    the same concentration; a zero slope is never flagged. *)
Theorem check_slope_risk_by_magnitude (slope current_conc : R) :
  utils.check_slope_risk (- slope) current_conc
    = utils.check_slope_risk slope current_conc /\
  (forall steeper,
     Rabs slope <= Rabs steeper ->
     utils.check_slope_risk slope current_conc = true ->
     utils.check_slope_risk steeper current_conc = true) /\
  utils.check_slope_risk 0 current_conc = false.
Proof.
  unfold utils.check_slope_risk, utils.Rgtb. split; [| split].
  - rewrite Rabs_Ropp. reflexivity.
  - intros steeper Hle.
    destruct (Rgt_dec (Rabs slope) 1000.0) as [Ha | Ha];
      destruct (Rgt_dec (Rabs steeper) 1000.0) as [Hb | Hb];
      try reflexivity; try lra.
    destruct (Rgt_dec current_conc 0) as [Hc |]; simpl; [| discriminate].
    destruct (Rgt_dec (Rabs slope / current_conc) 0.5) as [Hr |]; [| discriminate].
    intros _.
    destruct (Rgt_dec (Rabs steeper / current_conc) 0.5) as [| Hr']; [reflexivity |].
    exfalso. apply Hr'.
    assert (Hinv : 0 < / current_conc) by (apply Rinv_0_lt_compat; lra).
    unfold Rdiv in *.
    pose proof (Rmult_le_compat_r (/ current_conc) _ _ (Rlt_le _ _ Hinv) Hle).
    lra.
  - rewrite Rabs_R0.
    destruct (Rgt_dec 0 1000.0); [lra |].
    destruct (Rgt_dec current_conc 0); simpl; [| reflexivity].
    destruct (Rgt_dec (0 / current_conc) 0.5) as [Hr |]; [| reflexivity].
    unfold Rdiv in Hr. rewrite Rmult_0_l in Hr. lra.
Qed.

Lemma check_slope_risk_by_magnitude_witness :
  utils.check_slope_risk (- 80) 100 = true.
Proof.
  apply (proj1 (proj2 (check_slope_risk_by_magnitude 60 100)) (- 80)).
  - unfold Rabs. do 2 destruct Rcase_abs; lra.
  - unfold utils.check_slope_risk, utils.Rgtb.
    rewrite Rabs_pos_eq by lra.
    destruct (Rgt_dec 60 1000.0); [lra |].
    destruct (Rgt_dec 100 0); [| lra]. simpl.
    destruct (Rgt_dec (60 / 100) 0.5); [reflexivity | lra].
Defined.

(** X24: the reliability grade does not depend on the unit the error is
    shown in: an error converted to pmol/L and graded as such gets the grade
    of the original error in pg/mL. *)
Theorem reliability_grade_unit_invariant (t : string -> string) (rmse : option R) :
  utils.get_reliability_info t
    (option_map (fun r => utils.convert_e2_unit r "pmol/L") rmse) "pmol/L"
  = utils.get_reliability_info t rmse "pg/mL".
Proof.
  destruct rmse as [r |]; [| reflexivity].
  unfold utils.get_reliability_info, utils.convert_e2_unit. simpl.
  replace (r * 3.6713 / 3.6713) with r by lra. reflexivity.
Qed.

Lemma surgery_risk_points (surgery_risk_level : string) :
  (0 <= default 0
          (list_to_map (M := gmap string Z)
             [("HIGH", 3); ("MEDIUM", 2); ("LOW", 1)] !! surgery_risk_level) <= 3)%Z.
Proof.
  assert (Hall : map_Forall (fun (_ : string) v => (0 <= v <= 3)%Z)
                   (list_to_map (M := gmap string Z)
                      [("HIGH", 3%Z); ("MEDIUM", 2%Z); ("LOW", 1%Z)])).
  { refine (bool_decide_eq_true_1 _ _). vm_compute. reflexivity. }
  destruct (_ !! surgery_risk_level) as [v |] eqn:Hv; simpl; [| lia].
  exact (Hall _ _ Hv).
Qed.

(** X25: [calculate_vte_risk_score] raises exactly for a height of 0;
    otherwise the score lies between 0 and 13, and with a history of
    thrombosis the grade is never the lowest one (green). *)
Theorem vte_risk_score_range (t : string -> string) (weight height : Q) (age : Z)
    (is_smoker history_vte : bool) (surgery_risk_level : string)
    (has_oral_estrogen : bool) :
  (utils.calculate_vte_risk_score t weight height age is_smoker history_vte
     surgery_risk_level has_oral_estrogen = None <-> (height == 0)%Q) /\
  (forall score label colour,
     utils.calculate_vte_risk_score t weight height age is_smoker history_vte
       surgery_risk_level has_oral_estrogen = Some (score, label, colour) ->
     (0 <= score <= 13)%Z /\ (history_vte = true -> colour <> "green")).
Proof.
  unfold utils.calculate_vte_risk_score.
  pose proof (surgery_risk_points surgery_risk_level) as Hr.
  revert Hr. generalize (default 0%Z
    (list_to_map (M := gmap string Z)
       [("HIGH", 3%Z); ("MEDIUM", 2%Z); ("LOW", 1%Z)] !! surgery_risk_level)).
  intros r Hr.
  destruct (Qeq_bool (height / 100 * (height / 100)) 0) eqn:Hh.
  - split; [| discriminate]. split; [intros _ | reflexivity].
    apply Qeq_bool_iff in Hh.
    destruct (Qeq_dec height 0) as [H0 | H0]; [exact H0 |].
    exfalso. apply Qmult_integral in Hh.
    assert (Hd : ~ (height / 100 == 0)%Q).
    { intros Hd. apply H0.
      apply (Qeq_trans _ (height / 100 * 100)%Q); [field |].
      rewrite Hd. reflexivity. }
    destruct Hh; contradiction.
  - split.
    + split.
      * repeat match goal with |- context [if ?c then _ else _] => destruct c end;
          discriminate.
      * intros H0. exfalso. apply Qeq_bool_neq in Hh. apply Hh.
        rewrite H0. reflexivity.
    + intros score label colour.
      cbv zeta.
      repeat match goal with
             | |- context [if Qle_bool ?a ?b then _ else _] => destruct (Qle_bool a b)
             | |- context [if (?a <=? age)%Z then _ else _] => destruct (a <=? age)%Z
             end;
        destruct is_smoker, history_vte, has_oral_estrogen;
        repeat match goal with
               | |- context [(?a <=? ?b)%Z] => destruct (Z.leb_spec a b)
               end;
        intros [= <- <- <-]; (split; [lia |]); intros Hv;
        try discriminate; exfalso; lia.
Qed.

Lemma vte_risk_score_range_witness :
  exists score label colour,
    utils.calculate_vte_risk_score (fun key => key) 60 170 45 true true "LOW" true
    = Some (score, label, colour) /\
    (0 <= score <= 13)%Z /\ colour <> "green".
Proof.
  assert (Hrun : utils.calculate_vte_risk_score (fun key => key) 60 170 45 true true
                   "LOW" true = Some (8%Z, "risk_vhigh", "#8B0000"))
    by (vm_compute; reflexivity).
  exists 8%Z, "risk_vhigh", "#8B0000". split; [exact Hrun |].
  destruct (proj2 (vte_risk_score_range (fun key => key) 60 170 45 true true
                     "LOW" true) _ _ _ Hrun) as [Hrange Hcolour].
  split; [exact Hrange | apply Hcolour; reflexivity].
Defined.

(** X26: the predicted stage is fixed by the duration alone at both ends:
    below 3 months of treatment (and not a negative duration) it is the first
    stage at every level, and from 48 months on it is the last stage at every
    level; in between, a level of 100 or more reaches the last stage at 24
    months already. *)
Theorem feminization_stage_limits (t : string -> string)
    (total_hrt_months avg_e2 : R) :
  (0 <= total_hrt_months < 3 ->
   utils.predict_feminization_stage t total_hrt_months avg_e2
   = (t "ts_1_label", t "ts_1_desc")) /\
  (48 <= total_hrt_months ->
   utils.predict_feminization_stage t total_hrt_months avg_e2
   = (t "ts_5_label", t "ts_5_desc")) /\
  (24 <= total_hrt_months -> 100 <= avg_e2 ->
   utils.predict_feminization_stage t total_hrt_months avg_e2
   = (t "ts_5_label", t "ts_5_desc")).
Proof.
  unfold utils.predict_feminization_stage.
  repeat split; intros;
    destruct (Rlt_dec avg_e2 50); try destruct (Rlt_dec avg_e2 100); try lra;
    repeat match goal with
           | |- context [Rlt_dec ?a ?b] => destruct (Rlt_dec a b); try lra
           end;
    reflexivity.
Qed.

Lemma feminization_stage_limits_witness :
  utils.predict_feminization_stage (fun key => key) 2 300 = ("ts_1_label", "ts_1_desc") /\
  utils.predict_feminization_stage (fun key => key) 50 10 = ("ts_5_label", "ts_5_desc") /\
  utils.predict_feminization_stage (fun key => key) 24 100 = ("ts_5_label", "ts_5_desc").
Proof.
  split; [| split].
  - apply (proj1 (feminization_stage_limits (fun key => key) 2 300)). lra.
  - apply (proj1 (proj2 (feminization_stage_limits (fun key => key) 50 10))). lra.
  - apply (proj2 (proj2 (feminization_stage_limits (fun key => key) 24 100))); lra.
Defined.

Local Close Scope R_scope.
